(** * Observability platform: metrics, traces and logs

    A shallow embedding of [src/observability.py] (class
    [ObservabilityPlatform]) and the properties of its write path
    ([record_metric], [increment], [start_span], [end_span], [log]) and of its
    read path ([get_metrics], [get_trace], [get_logs], [service_dashboard],
    [alert_rules]), with the sample data of its constructor.

    Modelling conventions.
    - The SQLite file is a record [DB] of three tables; a table is the list of
      its rows in insertion (rowid) order, and a [SELECT] without [ORDER BY]
      scans it in that order.  A [PRIMARY KEY] column rejects a second row
      with the same key ([IntegrityError]).
    - A [datetime] is its number of microseconds on the time line, a [Z].  The
      tables keep [isoformat()] text and compare it as text; for naive
      datetimes that text orders exactly as the instants do, so the model
      compares the microsecond counts.
    - [datetime.now()] and [uuid.uuid4()] are inputs of each operation: the
      clock reading [now] and the fresh identifier [uuid].
    - A [str] is a [string], a sequence of 8-bit characters.
    - A metric value is a binary64 float ([PrimFloat.float]).  The column
      [value REAL] may be NULL, read back as [None]: a row holds an
      [option float], and [sql_real] is what SQLite keeps of a bound float
      (a NaN becomes NULL, minus zero becomes zero).  A span duration is the
      exact rational [total_seconds() * 1000] of an integral microsecond
      difference; the rounding of that product to binary64 is not modelled.
    - One call reads the clock once: the [datetime.now()] of every in-flight
      span of a [get_trace] is the same [now].
    - [json.dumps] of a [Dict[str, str]] is modelled by the dictionary itself,
      an association list in insertion order. *)

From Stdlib Require Import ZArith List String Ascii Bool Lia.
From Stdlib Require Import Floats QArith Permutation Sorted.
From Stdlib Require Uint63.
Import ListNotations.

Local Open Scope string_scope.
Local Open Scope Z_scope.

(** ** Python values *)

Definition dict : Type := list (string * string).

(** A JSON-serialisable value of a keyword argument of [log]. *)
Inductive pyval : Type :=
| PStr (s : string)
| PInt (z : Z)
| PFloat (f : float)
| PBool (b : bool)
| PNone.

(** The number stored under ['threshold']: the float [0.05] or the int [500]. *)
Inductive number : Type :=
| Int (z : Z)
| Float (f : float).

Inductive exn : Type :=
| IntegrityError
| TypeError.

Inductive result (A : Type) : Type :=
| Ok (a : A)
| Raise (e : exn).
Arguments Ok {A} a.
Arguments Raise {A} e.

Definition raises {A : Type} (r : result A) : bool :=
  match r with Ok _ => false | Raise _ => true end.

(** Truthiness of an optional string argument: [if name:]. *)
Definition truthy (s : option string) : bool :=
  match s with
  | None => false
  | Some EmptyString => false
  | Some _ => true
  end.

(** [hay.startswith(needle)] and [needle in hay] on Python strings. *)
Fixpoint startswith (needle hay : string) : bool :=
  match needle with
  | EmptyString => true
  | String c needle' =>
      match hay with
      | EmptyString => false
      | String d hay' => Ascii.eqb c d && startswith needle' hay'
      end
  end.

Fixpoint str_in (needle hay : string) : bool :=
  startswith needle hay ||
  match hay with
  | EmptyString => false
  | String _ hay' => str_in needle hay'
  end.

(** ** SQLite's LIKE operator

    The default LIKE of SQLite: [%] matches any run of characters, [_] any
    single character, and any other pattern character matches itself up to
    the case of the ASCII letters. *)

Definition lower (c : ascii) : ascii :=
  let n := nat_of_ascii c in
  if (Nat.leb 65 n && Nat.leb n 90)%bool then ascii_of_nat (n + 32) else c.

Fixpoint lower_string (s : string) : string :=
  match s with
  | EmptyString => EmptyString
  | String c s' => String (lower c) (lower_string s')
  end.

(** [%]: the rest of the pattern, [rest], matches some suffix of [t]. *)
Fixpoint any_suffix (rest : string -> bool) (t : string) : bool :=
  rest t ||
  match t with
  | EmptyString => false
  | String _ t' => any_suffix rest t'
  end.

Fixpoint like (p s : string) : bool :=
  match p with
  | EmptyString =>
      match s with EmptyString => true | String _ _ => false end
  | String c p' =>
      if Ascii.eqb c "%" then any_suffix (like p') s
      else if Ascii.eqb c "_" then
        match s with
        | EmptyString => false
        | String _ s' => like p' s'
        end
      else
        match s with
        | EmptyString => false
        | String d s' => Ascii.eqb (lower c) (lower d) && like p' s'
        end
  end.

(** A LIKE pattern character that is not a wildcard. *)
Definition plain (c : ascii) : bool :=
  negb (Ascii.eqb c "%") && negb (Ascii.eqb c "_").

Fixpoint wildcard_free (p : string) : bool :=
  match p with
  | EmptyString => true
  | String c p' => plain c && wildcard_free p'
  end.

(** ** The three tables *)

Module Metric.
Record row : Type := mk {
  id : string;
  name : string;
  value : option float;
  labels : dict;
  timestamp : Z;
  type : string
}.
End Metric.

Module Span.
Record row : Type := mk {
  trace_id : string;
  span_id : string;
  parent_span_id : option string;
  service : string;
  operation : string;
  start_ts : Z;
  end_ts : option Z;
  status : string;
  tags : dict
}.
End Span.

Module LogEntry.
Record row : Type := mk {
  id : string;
  service : string;
  level : string;
  message : string;
  timestamp : Z;
  trace_id : option string;
  fields : list (string * pyval)
}.
End LogEntry.

Record DB : Type := mkDB {
  metrics : list Metric.row;
  spans : list Span.row;
  logs : list LogEntry.row
}.

Definition empty_db : DB := mkDB [] [] [].

(** [timedelta(minutes=m)] in microseconds. *)
Definition minutes (m : Z) : Z := m * 60000000.

(** ** Write path *)

(** A float bound to a REAL column, as it is read back: SQLite stores a NaN
    as NULL, and minus zero as the integer zero, read back as [0.0]. *)
Definition sql_real (value : float) : option float :=
  if PrimFloat.is_nan value then None
  else if PrimFloat.eqb value 0 then Some 0%float
  else Some value.

Definition record_metric (now : Z) (uuid : string) (name : string)
    (value : float) (labels : option dict) (type : string) (db : DB)
  : result (string * DB) :=
  let labels := match labels with None => [] | Some l => l end in
  let metric_id := uuid in
  if existsb (fun r => String.eqb (Metric.id r) metric_id) (metrics db) then
    Raise IntegrityError
  else
    Ok (metric_id,
        mkDB (metrics db ++
                [Metric.mk metric_id name (sql_real value) labels now type])
               %list
             (spans db) (logs db)).

Definition increment (now : Z) (uuid : string) (name : string)
    (labels : option dict) (db : DB) : result (string * DB) :=
  let labels := match labels with None => [] | Some l => l end in
  record_metric now uuid name 1%float (Some labels) "counter" db.

Definition start_span (now : Z) (uuid_trace uuid_span : string)
    (service operation : string) (trace_id parent_span_id : option string)
    (db : DB) : result (string * DB) :=
  let trace_id := match trace_id with None => uuid_trace | Some t => t end in
  let span_id := uuid_span in
  if existsb (fun r => String.eqb (Span.span_id r) span_id) (spans db) then
    Raise IntegrityError
  else
    Ok (span_id,
        mkDB (metrics db)
             (spans db ++ [Span.mk trace_id span_id parent_span_id service
                                   operation now None "ok" []])%list
             (logs db)).

(** [UPDATE spans SET end_ts = ?, status = ?, tags = ? WHERE span_id = ?] *)
Definition update_span (now : Z) (span_id status : string) (tags : dict)
    (r : Span.row) : Span.row :=
  if String.eqb (Span.span_id r) span_id then
    Span.mk (Span.trace_id r) (Span.span_id r) (Span.parent_span_id r)
            (Span.service r) (Span.operation r) (Span.start_ts r)
            (Some now) status tags
  else r.

Definition end_span (now : Z) (span_id : string) (status : string)
    (tags : option dict) (db : DB) : result DB :=
  let tags := match tags with None => [] | Some t => t end in
  Ok (mkDB (metrics db)
           (map (update_span now span_id status tags) (spans db))
           (logs db)).

Definition log (now : Z) (uuid : string) (service level message : string)
    (trace_id : option string) (fields : list (string * pyval)) (db : DB)
  : result (string * DB) :=
  let log_id := uuid in
  if existsb (fun r => String.eqb (LogEntry.id r) log_id) (logs db) then
    Raise IntegrityError
  else
    Ok (log_id,
        mkDB (metrics db) (spans db)
             (logs db ++ [LogEntry.mk log_id service level message now
                                     trace_id fields])%list).

(** ** Read path *)

(** [ORDER BY key ASC] and [ORDER BY key DESC], as stable insertion sorts. *)
Fixpoint insert_by {A : Type} (le : A -> A -> bool) (x : A) (l : list A)
  : list A :=
  match l with
  | [] => [x]
  | y :: l' => if le x y then x :: l else y :: insert_by le x l'
  end.

Definition sort_by {A : Type} (le : A -> A -> bool) (l : list A) : list A :=
  fold_right (insert_by le) [] l.

Definition order_by_asc {A : Type} (key : A -> Z) : list A -> list A :=
  sort_by (fun x y => key x <=? key y).

Definition order_by_desc {A : Type} (key : A -> Z) : list A -> list A :=
  sort_by (fun x y => key y <=? key x).

(** [LIMIT n]: a negative [n] means no limit. *)
Definition sql_limit {A : Type} (n : Z) (l : list A) : list A :=
  if n <? 0 then l else firstn (Z.to_nat n) l.

(** The clause [AND name LIKE ?] with the parameter [f"%{name}%"], added
    only [if name:]. *)
Definition name_matches (name : option string) (r : Metric.row) : bool :=
  if truthy name then
    match name with
    | Some n => like (String "%" (n ++ "%")) (Metric.name r)
    | None => true
    end
  else true.

Definition get_metrics (now : Z) (name : option string) (labels : option dict)
    (since_minutes : Z) (db : DB) : list Metric.row :=
  let cutoff := now - minutes since_minutes in
  filter
    (fun r => (cutoff <? Metric.timestamp r) && name_matches name r)
    (metrics db).

Module Waterfall.
Record entry : Type := mk {
  service : string;
  operation : string;
  duration_ms : Q;
  status : string
}.
End Waterfall.

Module Trace.
Record t : Type := mk {
  trace_id : string;
  spans : list Span.row;
  waterfall : list Waterfall.entry
}.
End Trace.

(** [timedelta.total_seconds()] of a difference of [td] microseconds. *)
Definition total_seconds (td : Z) : Q := td # 1000000.

Definition waterfall_entry (now : Z) (span : Span.row) : Waterfall.entry :=
  let start := Span.start_ts span in
  let end_ := match Span.end_ts span with Some e => e | None => now end in
  let duration_ms := (total_seconds (end_ - start) * 1000)%Q in
  Waterfall.mk (Span.service span) (Span.operation span) duration_ms
               (Span.status span).

Definition get_trace (now : Z) (trace_id : string) (db : DB) : Trace.t :=
  let spans :=
    order_by_asc Span.start_ts
      (filter (fun r => String.eqb (Span.trace_id r) trace_id) (spans db)) in
  let waterfall :=
    fold_left (fun waterfall span => (waterfall ++ [waterfall_entry now span])%list)
              spans [] in
  Trace.mk trace_id spans waterfall.

Definition get_logs (now : Z) (service level : option string)
    (since_minutes limit : Z) (db : DB) : list LogEntry.row :=
  let cutoff := now - minutes since_minutes in
  sql_limit limit
    (order_by_desc LogEntry.timestamp
       (filter
          (fun r =>
             (cutoff <? LogEntry.timestamp r) &&
             match service with
             | Some s =>
                 if truthy service then String.eqb (LogEntry.service r) s
                 else true
             | None => true
             end &&
             match level with
             | Some l =>
                 if truthy level then String.eqb (LogEntry.level r) l
                 else true
             | None => true
             end)
          (logs db))).

Fixpoint _find_metric (metrics : list Metric.row) (name : string)
  : option float :=
  match metrics with
  | [] => None
  | m :: metrics' =>
      if String.eqb (Metric.name m) name then Metric.value m
      else _find_metric metrics' name
  end.

Module Dashboard.
Record metrics_t : Type := mk_metrics {
  requests_per_minute : option float;
  error_rate : option float;
  p50_latency : option float;
  p95_latency : option float;
  p99_latency : option float
}.
Record t : Type := mk {
  service : string;
  metrics : metrics_t;
  recent_errors : list LogEntry.row
}.
End Dashboard.

Definition service_dashboard (now : Z) (service : string) (db : DB)
  : Dashboard.t :=
  let metrics := get_metrics now (Some service) None 60 db in
  let logs := get_logs now (Some service) (Some "error") 60 10 db in
  Dashboard.mk service
    (Dashboard.mk_metrics
       (_find_metric metrics (service ++ ".requests_per_minute"))
       (_find_metric metrics (service ++ ".error_rate"))
       (_find_metric metrics (service ++ ".p50_latency_ms"))
       (_find_metric metrics (service ++ ".p95_latency_ms"))
       (_find_metric metrics (service ++ ".p99_latency_ms")))
    logs.

Module Violation.
Record t : Type := mk {
  metric : string;
  value : option float;
  threshold : number;
  severity : string
}.
End Violation.

(** [value > threshold] on the value of a row: [None > x] raises
    [TypeError]. *)
Definition py_gt (value : option float) (threshold : float) : result bool :=
  match value with
  | Some v => Ok (PrimFloat.ltb threshold v)
  | None => Raise TypeError
  end.

(** [needle in metric['name'] and metric['value'] > threshold]: the value is
    compared only when the name matches. *)
Definition rule (needle : string) (threshold : float) (metric : Metric.row)
  : result bool :=
  if str_in needle (Metric.name metric)
  then py_gt (Metric.value metric) threshold
  else Ok false.

(** One turn of the loop of [alert_rules]: both checks, one after the other;
    [0x1.999999999999ap-5] is the binary64 value of the literal [0.05]. *)
Definition check_metric (violations : list Violation.t) (metric : Metric.row)
  : result (list Violation.t) :=
  match rule "error_rate" 0x1.999999999999ap-5 metric with
  | Raise e => Raise e
  | Ok high =>
      let violations :=
        if high
        then (violations ++
              [Violation.mk (Metric.name metric) (Metric.value metric)
                            (Float 0x1.999999999999ap-5) "high"])%list
        else violations in
      match rule "p99_latency" 500 metric with
      | Raise e => Raise e
      | Ok medium =>
          Ok (if medium
              then (violations ++
                    [Violation.mk (Metric.name metric) (Metric.value metric)
                                  (Int 500) "medium"])%list
              else violations)
      end
  end.

(** [for metric in metrics: ...]; an exception ends the loop and the call. *)
Fixpoint alert_loop (metrics : list Metric.row)
    (violations : list Violation.t) : result (list Violation.t) :=
  match metrics with
  | [] => Ok violations
  | metric :: metrics' =>
      match check_metric violations metric with
      | Ok violations' => alert_loop metrics' violations'
      | Raise e => Raise e
      end
  end.

Definition alert_rules (now : Z) (db : DB) : result (list Violation.t) :=
  let metrics := get_metrics now None None 5 db in
  alert_loop metrics [].

(** ** Histories of calls

    The store is only ever changed by the write path.  A history is a
    sequence of such calls, each with the clock reading it saw; a failed call
    leaves the store as it was (the connection context rolls back). *)

Inductive call : Type :=
| RecordMetric (uuid name : string) (value : float) (labels : option dict)
               (type : string)
| Increment (uuid name : string) (labels : option dict)
| StartSpan (uuid_trace uuid_span service operation : string)
            (trace_id parent_span_id : option string)
| EndSpan (span_id status : string) (tags : option dict)
| Log (uuid service level message : string) (trace_id : option string)
      (fields : list (string * pyval)).

Definition store_after {A : Type} (db : DB) (r : result (A * DB)) : DB :=
  match r with
  | Ok (_, db') => db'
  | Raise _ => db
  end.

Definition run (now : Z) (c : call) (db : DB) : DB :=
  match c with
  | RecordMetric uuid name value labels type =>
      store_after db (record_metric now uuid name value labels type db)
  | Increment uuid name labels =>
      store_after db (increment now uuid name labels db)
  | StartSpan uuid_trace uuid_span service operation trace_id parent =>
      store_after db
        (start_span now uuid_trace uuid_span service operation trace_id
                    parent db)
  | EndSpan span_id status tags =>
      match end_span now span_id status tags db with
      | Ok db' => db'
      | Raise _ => db
      end
  | Log uuid service level message trace_id fields =>
      store_after db (log now uuid service level message trace_id fields db)
  end.

(** [history t db]: [db] is the store left by a sequence of calls made on a
    clock that never runs backwards, the last of them no later than [t]. *)
Inductive history : Z -> DB -> Prop :=
| history_init : forall t, history t empty_db
| history_call : forall t t' c db,
    history t db -> t <= t' -> history t' (run t' c db).

(** Every stored span started no later than [t] and, once ended, ended
    between its start and [t]. *)
Definition span_times_ok (t : Z) (r : Span.row) : Prop :=
  Span.start_ts r <= t /\
  match Span.end_ts r with
  | Some e => Span.start_ts r <= e <= t
  | None => True
  end.

(** ** Sample data

    [_populate_sample_data], which the constructor runs on every start.
    [hash] is Python's [hash] on strings, fixed within one process; the
    [k]-th call of [record_metric] sees the clock and the identifier
    [env k].  An [int] bound to the REAL column [value] is read back as the
    float [float_of_int]; the sample values lie below [2^53] and convert
    exactly. *)

Definition SERVICES : list string :=
  ["gateway"; "worlds-worker"; "dashboard-api"; "agents-status";
   "fleet-manager"].

Definition float_of_int (z : Z) : float :=
  PrimFloat.of_uint63 (Uint63.of_Z z).

(** The three [record_metric] calls of one turn of the loop: name, value and
    labels. *)
Definition sample_metrics (hash : string -> Z) (service : string)
  : list (string * float * dict) :=
  [ (service ++ ".requests_per_minute",
     float_of_int (150 + hash service mod 100),
     [("service", service)]);
    (service ++ ".error_rate",
     PrimFloat.div (float_of_int (hash service mod 5)) 100,
     [("service", service)]);
    (service ++ ".p99_latency_ms",
     float_of_int (100 + hash service mod 200),
     [("service", service)]) ].

(** The calls in order; the first one that raises ends the run, and the rows
    committed before it stay. *)
Fixpoint record_all (env : nat -> Z * string) (k : nat)
    (todo : list (string * float * dict)) (db : DB) : DB * option exn :=
  match todo with
  | [] => (db, None)
  | (name, value, labels) :: todo' =>
      match record_metric (fst (env k)) (snd (env k)) name value
                          (Some labels) "gauge" db with
      | Ok (_, db') => record_all env (S k) todo' db'
      | Raise e => (db, Some e)
      end
  end.

Definition _populate_sample_data (hash : string -> Z) (env : nat -> Z * string)
    (db : DB) : DB * option exn :=
  record_all env 0 (flat_map (sample_metrics hash) SERVICES) db.

(** ** Further reference notions *)

(** [value > threshold] where a missing value counts for no. *)
Definition exceeds (value : option float) (threshold : float) : bool :=
  match value with
  | Some v => PrimFloat.ltb threshold v
  | None => false
  end.

(** The violations of one row, when its value can be compared. *)
Definition violations_of (m : Metric.row) : list Violation.t :=
  (if str_in "error_rate" (Metric.name m)
      && exceeds (Metric.value m) 0x1.999999999999ap-5
   then [Violation.mk (Metric.name m) (Metric.value m)
                      (Float 0x1.999999999999ap-5) "high"]
   else []) ++
  (if str_in "p99_latency" (Metric.name m) && exceeds (Metric.value m) 500
   then [Violation.mk (Metric.name m) (Metric.value m) (Int 500) "medium"]
   else []).

(** A row that [alert_rules] cannot judge: its name matches a rule and its
    value is NULL. *)
Definition unjudged (m : Metric.row) : bool :=
  (str_in "error_rate" (Metric.name m) || str_in "p99_latency" (Metric.name m))
  && match Metric.value m with Some _ => false | None => true end.

(** Two rows in the window of an alert: an error rate recorded as NaN, stored
    as NULL, and an error rate of 0.10. *)
Definition nan_db : DB :=
  run 200 (RecordMetric "m2" "b.error_rate" 0x1.999999999999ap-4 None "gauge")
    (run 100 (RecordMetric "m1" "a.error_rate" nan None "gauge") empty_db).

(** The rows of [logs] that a [get_logs] call selects before ordering and
    limiting them. *)
Definition log_selected (now : Z) (service level : option string)
    (since_minutes : Z) (r : LogEntry.row) : Prop :=
  now - LogEntry.timestamp r < minutes since_minutes /\
  (forall s, service = Some s -> s <> EmptyString -> LogEntry.service r = s) /\
  (forall l, level = Some l -> l <> EmptyString -> LogEntry.level r = l).

(** What a span never loses: everything but [end_ts], [status] and [tags]. *)
Definition span_identity (r : Span.row)
  : string * string * option string * string * string * Z :=
  (Span.trace_id r, Span.span_id r, Span.parent_span_id r, Span.service r,
   Span.operation r, Span.start_ts r).

(** The rows that the calls [todo], numbered from [k], write when none of
    them fails. *)
Fixpoint sample_rows (env : nat -> Z * string) (k : nat)
    (todo : list (string * float * dict)) : list Metric.row :=
  match todo with
  | [] => []
  | (name, value, labels) :: todo' =>
      Metric.mk (snd (env k)) name (sql_real value) labels (fst (env k))
                "gauge"
      :: sample_rows env (S k) todo'
  end.

(** The dashboard of a service that has only its sample data. *)
Definition sample_dashboard (hash : string -> Z) (service : string)
  : Dashboard.metrics_t :=
  Dashboard.mk_metrics
    (Some (float_of_int (150 + hash service mod 100)))
    (Some (PrimFloat.div (float_of_int (hash service mod 5)) 100))
    None None
    (Some (float_of_int (100 + hash service mod 200))).

(** The table a call writes to. *)
Inductive table : Type :=
| TMetrics
| TSpans
| TLogs.

Definition target (c : call) : table :=
  match c with
  | RecordMetric _ _ _ _ _ => TMetrics
  | Increment _ _ _ => TMetrics
  | StartSpan _ _ _ _ _ _ => TSpans
  | EndSpan _ _ _ => TSpans
  | Log _ _ _ _ _ _ => TLogs
  end.

(** A sequence of calls, each with the clock reading it sees. *)
Definition run_all (calls : list (Z * call)) (db : DB) : DB :=
  fold_left (fun db tc => run (fst tc) (snd tc) db) calls db.

(** ** Reference readings

    The five dashboard fields with the suffix of the metric name each one is
    looked up under, as written in [service_dashboard]. *)
Definition dashboard_fields
  : list ((Dashboard.metrics_t -> option float) * string) :=
  [ (Dashboard.requests_per_minute, ".requests_per_minute");
    (Dashboard.error_rate, ".error_rate");
    (Dashboard.p50_latency, ".p50_latency_ms");
    (Dashboard.p95_latency, ".p95_latency_ms");
    (Dashboard.p99_latency, ".p99_latency_ms") ].

(** The specification's reading of a dashboard field: the value of the row
    named [name] with the latest timestamp, the later stored one on a tie. *)
Definition spec_most_recent (rows : list Metric.row) (name : string)
  : option float :=
  (fun best => match best with Some m => Metric.value m | None => None end)
    (fold_left
       (fun best m =>
          if String.eqb (Metric.name m) name then
            match best with
            | Some b =>
                if Metric.timestamp b <=? Metric.timestamp m then Some m
                else best
            | None => Some m
            end
          else best)
       rows None).

(** ** Example stores *)

(** One counter row, named in lower case. *)
Definition hits_row : Metric.row :=
  Metric.mk "m1" "x.hits" (Some 1%float) [] 1000 "counter".

Definition hits_db : DB := mkDB [hits_row] [] [].

(** Two readings of one gateway metric, the older one first, and a latency
    reading named without the [_ms] suffix. *)
Definition gateway_db : DB :=
  mkDB [ Metric.mk "m1" "gateway.error_rate" (Some 0.25%float) [] 100 "gauge";
         Metric.mk "m2" "gateway.error_rate" (Some 0.5%float) [] 200 "gauge";
         Metric.mk "m3" "gateway.p99_latency" (Some 700%float) [] 300 "gauge" ]
       [] [].

(** A reading whose name matches both alert rules. *)
Definition both_row : Metric.row :=
  Metric.mk "m1" "error_rate.p99_latency" (Some 600%float) [] 1000 "gauge".

(** A span started at 10 and ended at 25, and a span started at 20 that is
    still in flight at 30. *)
Definition two_spans_db : DB :=
  run 30 (Log "l1" "gateway" "info" "done" (Some "t") [])
    (run 25 (EndSpan "a" "error" (Some [("code", "500")]))
       (run 20 (StartSpan "unused" "b" "worker" "job" (Some "t") (Some "a"))
          (run 10 (StartSpan "t" "a" "gateway" "GET /" None None) empty_db))).

(** Three log rows of one service, stored oldest first. *)
Definition three_logs_db : DB :=
  mkDB [] []
       [ LogEntry.mk "l1" "gateway" "error" "timeout" 100 None [];
         LogEntry.mk "l2" "gateway" "error" "refused" 200 (Some "t") [];
         LogEntry.mk "l3" "gateway" "error" "reset" 300 None [] ].

(** Two readings recorded through the write path, at 100 and at 200. *)
Definition two_readings_db : DB :=
  run 200 (RecordMetric "m2" "gateway.error_rate" 0.5 None "gauge")
    (run 100 (RecordMetric "m1" "gateway.error_rate" 0.25 None "gauge")
       empty_db).

(** A process in which every string hashes to 7, and the clock and the
    identifier of its [k]-th call. *)
Definition hash7 (s : string) : Z := 7.

Definition env_k (k : nat) : Z * string :=
  (Z.of_nat k, String (ascii_of_nat (65 + k)) EmptyString).

(** A later process, in which every string hashes to 9, with later clock
    readings and other identifiers. *)
Definition hash9 (s : string) : Z := 9.

Definition env_k2 (k : nat) : Z * string :=
  (100 + Z.of_nat k, String (ascii_of_nat (97 + k)) EmptyString).

(** * Properties *)

(** ** Strings and LIKE *)

Lemma startswith_app : forall a s,
  startswith a s = true <-> exists t, s = (a ++ t)%string.
Proof.
  induction a as [|c a IH]; intros s; simpl.
  - split; [intros _; now exists s | reflexivity].
  - destruct s as [|d s].
    + split; [discriminate | intros [t Ht]; discriminate].
    + destruct (Ascii.eqb_spec c d) as [->|Hcd]; simpl.
      * rewrite IH. split; intros [t Ht]; exists t.
        -- now rewrite Ht.
        -- now injection Ht.
      * split; [discriminate | intros [t Ht]; injection Ht; congruence].
Qed.

Lemma str_in_app : forall n h,
  str_in n h = true <-> exists pre post, h = (pre ++ n ++ post)%string.
Proof.
  intros n h; induction h as [|d h IH]; simpl.
  - rewrite orb_false_r, startswith_app. split.
    + intros [t Ht]. now exists EmptyString, t.
    + intros [pre [post H]]. destruct pre; simpl in H.
      * now exists post.
      * discriminate.
  - rewrite orb_true_iff, startswith_app, IH. split.
    + intros [[t Ht] | [pre [post H]]].
      * now exists EmptyString, t.
      * exists (String d pre), post. simpl. now rewrite H.
    + intros [pre [post H]]. destruct pre as [|c pre]; simpl in H.
      * left. now exists post.
      * right. injection H as _ H. now exists pre, post.
Qed.

Lemma any_suffix_app : forall rest t,
  any_suffix rest t = true <->
  exists a b, t = (a ++ b)%string /\ rest b = true.
Proof.
  intros rest t; induction t as [|d t IH]; simpl.
  - rewrite orb_false_r. split.
    + intros H. now exists EmptyString, EmptyString.
    + intros [a [b [H Hb]]]. destruct a; simpl in H; [now subst | discriminate].
  - rewrite orb_true_iff, IH. split.
    + intros [H | [a [b [H Hb]]]].
      * now exists EmptyString, (String d t).
      * exists (String d a), b. simpl. now rewrite H.
    + intros [a [b [H Hb]]]. destruct a as [|c a]; simpl in H.
      * left. now subst.
      * right. injection H as _ H. now exists a, b.
Qed.

Lemma like_percent : forall p s,
  like (String "%" p) s = any_suffix (like p) s.
Proof. reflexivity. Qed.

Lemma like_all : forall s, like "%" s = true.
Proof.
  intros s. rewrite like_percent, any_suffix_app.
  exists s, EmptyString. split; [|reflexivity].
  induction s as [|c s IH]; simpl; [reflexivity | now rewrite <- IH].
Qed.

(** A literal copy of the pattern text always matches it, wildcards or not. *)
Lemma like_literal : forall n p b,
  like p b = true -> like (n ++ p) (n ++ b) = true.
Proof.
  induction n as [|c n IH]; intros p b H; cbn [append like]; [exact H|].
  destruct (Ascii.eqb c "%").
  - apply any_suffix_app. exists (String c EmptyString), (n ++ b)%string.
    split; [reflexivity | now apply IH].
  - destruct (Ascii.eqb c "_"); [now apply IH|].
    rewrite Ascii.eqb_refl. now apply IH.
Qed.

Lemma like_contains : forall n s,
  str_in n s = true -> like (String "%" (n ++ "%")) s = true.
Proof.
  intros n s H. apply str_in_app in H. destruct H as [pre [post ->]].
  rewrite like_percent. apply any_suffix_app.
  exists pre, (n ++ post)%string. split; [reflexivity|].
  apply like_literal, like_all.
Qed.

Lemma lower_string_app : forall a b,
  lower_string (a ++ b) = (lower_string a ++ lower_string b)%string.
Proof.
  induction a as [|c a IH]; intros b; simpl; [reflexivity | now rewrite IH].
Qed.

Lemma lower_string_split : forall s x y,
  lower_string s = (x ++ y)%string ->
  exists a b, s = (a ++ b)%string /\ lower_string a = x /\ lower_string b = y.
Proof.
  intros s x; revert s; induction x as [|c x IH]; intros s y H; simpl in H.
  - now exists EmptyString, s.
  - destruct s as [|d s]; simpl in H; [discriminate|].
    injection H as Hc H. apply IH in H. destruct H as [a [b [-> [Ha Hb]]]].
    exists (String d a), b. simpl. now rewrite Hc, Ha.
Qed.

(** Without wildcards, a pattern prefix [n] matches exactly the texts that
    start with [n] up to the case of the ASCII letters. *)
Lemma like_plain : forall n p s,
  wildcard_free n = true ->
  (like (n ++ p) s = true <->
   exists a b, s = (a ++ b)%string /\ lower_string a = lower_string n /\
               like p b = true).
Proof.
  induction n as [|c n IH]; intros p s Hn.
  - simpl. split.
    + intros H. now exists EmptyString, s.
    + intros [a [b [-> [Ha H]]]]. destruct a; [exact H | discriminate].
  - simpl in Hn. apply andb_true_iff in Hn. destruct Hn as [Hc Hn].
    unfold plain in Hc. apply andb_true_iff in Hc. destruct Hc as [Hc1 Hc2].
    apply negb_true_iff in Hc1, Hc2.
    cbn [append like]. rewrite Hc1, Hc2.
    destruct s as [|d s].
    + split; [discriminate|].
      intros [a [b [H [Ha _]]]]. destruct a; simpl in *; discriminate.
    + rewrite andb_true_iff, (IH p s Hn). split.
      * intros [Hcd [a [b [-> [Ha H]]]]]. apply Ascii.eqb_eq in Hcd.
        exists (String d a), b. simpl. now rewrite Ha, Hcd.
      * intros [a [b [H [Ha Hb]]]]. destruct a as [|e a]; [discriminate|].
        simpl in H, Ha. injection H as -> ->. injection Ha as He Ha.
        split; [now rewrite He, Ascii.eqb_refl | now exists a, b].
Qed.

(** Without wildcards, [LIKE '%n%'] is the substring test on the lower-cased
    texts. *)
Lemma like_plain_contains : forall n s,
  wildcard_free n = true ->
  like (String "%" (n ++ "%")) s = str_in (lower_string n) (lower_string s).
Proof.
  intros n s Hn. apply eq_true_iff_eq.
  rewrite like_percent, any_suffix_app, str_in_app. split.
  - intros [pre [t [-> H]]]. apply (like_plain n "%" t Hn) in H.
    destruct H as [a [b [-> [Ha _]]]].
    exists (lower_string pre), (lower_string b).
    now rewrite !lower_string_app, Ha.
  - intros [x [y H]]. apply lower_string_split in H.
    destruct H as [pre [t [-> [_ H]]]]. apply lower_string_split in H.
    destruct H as [a [b [-> [Ha _]]]].
    exists pre, (a ++ b)%string. split; [reflexivity|].
    apply (like_plain n "%" _ Hn). exists a, b.
    split; [reflexivity | split; [exact Ha | apply like_all]].
Qed.

(** ** Metric queries *)

Lemma get_metrics_In : forall now name labels w db M,
  In M (get_metrics now name labels w db) <->
  In M (metrics db) /\ now - Metric.timestamp M < minutes w /\
  name_matches name M = true.
Proof.
  intros now name labels w db M. unfold get_metrics.
  rewrite filter_In, andb_true_iff, Z.ltb_lt. intuition lia.
Qed.

Lemma truthy_Some : forall n, truthy (Some n) = true <-> n <> EmptyString.
Proof.
  intros [|c n]; simpl; split; intros H; try reflexivity; congruence.
Qed.

Lemma name_matches_Some : forall n M,
  n <> EmptyString ->
  name_matches (Some n) M = like (String "%" (n ++ "%")) (Metric.name M).
Proof.
  intros n M Hn. unfold name_matches. apply truthy_Some in Hn.
  now rewrite Hn.
Qed.

Lemma name_matches_literal : forall n M,
  str_in n (Metric.name M) = true -> name_matches (Some n) M = true.
Proof.
  intros n M H. unfold name_matches.
  destruct (truthy (Some n)); [now apply like_contains | reflexivity].
Qed.

Lemma name_matches_like : forall name M,
  name_matches name M = true <->
  (forall n, name = Some n -> n <> EmptyString ->
             like (String "%" (n ++ "%")) (Metric.name M) = true).
Proof.
  intros name M. split.
  - intros H n -> Hn. now rewrite name_matches_Some in H.
  - intros H. destruct name as [n|]; [|reflexivity].
    destruct n as [|c n]; [reflexivity|].
    rewrite name_matches_Some by discriminate.
    apply H; [reflexivity | discriminate].
Qed.

(** C2 (as amended): [get_metrics] returns a stored metric exactly when its
    timestamp is strictly after the cutoff [now - since_minutes] (a metric
    exactly at the cutoff is excluded) and, for a non-empty [name] argument,
    its name matches the SQL pattern [%name%] under LIKE.  Every name that
    contains the argument as a literal substring matches; for an argument
    without [%] and [_] the match is the substring test up to the case of the
    ASCII letters. *)
Theorem get_metrics_window_and_like : forall now name labels w db M,
  (In M (get_metrics now name labels w db) <->
   In M (metrics db) /\ now - Metric.timestamp M < minutes w /\
   (forall n, name = Some n -> n <> EmptyString ->
              like (String "%" (n ++ "%")) (Metric.name M) = true)) /\
  (forall n, name = Some n -> In M (metrics db) ->
             now - Metric.timestamp M < minutes w ->
             str_in n (Metric.name M) = true ->
             In M (get_metrics now name labels w db)) /\
  (forall n, name = Some n -> n <> EmptyString -> wildcard_free n = true ->
             (In M (get_metrics now name labels w db) <->
              In M (metrics db) /\ now - Metric.timestamp M < minutes w /\
              str_in (lower_string n) (lower_string (Metric.name M)) = true)).
Proof.
  intros now name labels w db M. split; [|split].
  - now rewrite get_metrics_In, name_matches_like.
  - intros n -> Hin Hw Hsub. apply get_metrics_In.
    split; [exact Hin | split; [exact Hw | now apply name_matches_literal]].
  - intros n -> Hn Hfree.
    now rewrite get_metrics_In, name_matches_Some, like_plain_contains.
Qed.

(** The amended C2 at the store [hits_db]: the lower-case row is returned for
    the query ["x.hi"] one millisecond after it was written. *)
Lemma get_metrics_window_and_like_witness :
  In hits_row (get_metrics 2000 (Some "x.hi") None 60 hits_db).
Proof.
  apply (proj1 (proj2 (get_metrics_window_and_like
                         2000 (Some "x.hi") None 60 hits_db hits_row))
           "x.hi" eq_refl).
  - simpl. now left.
  - vm_compute. reflexivity.
  - reflexivity.
Defined.

(** C2 fails as stated: the query ["X.HITS"] returns the row named
    ["x.hits"], which does not contain it as a case-matching substring, and so
    does the query ["x_h%s"], whose wildcards are not literal text. *)
Lemma get_metrics_not_case_sensitive :
  In hits_row (get_metrics 2000 (Some "X.HITS") None 60 hits_db) /\
  str_in "X.HITS" (Metric.name hits_row) = false /\
  In hits_row (get_metrics 2000 (Some "x_h%s") None 60 hits_db) /\
  str_in "x_h%s" (Metric.name hits_row) = false.
Proof.
  repeat split; try reflexivity; simpl; now left.
Qed.

(** ** Alert rules *)

Lemma check_metric_judged : forall violations m,
  unjudged m = false ->
  check_metric violations m = Ok (violations ++ violations_of m)%list.
Proof.
  intros violations m H. unfold check_metric, rule, violations_of, unjudged in *.
  destruct (Metric.value m) as [v|]; simpl in *.
  - destruct (str_in "error_rate" (Metric.name m)),
             (str_in "p99_latency" (Metric.name m)); simpl;
      repeat match goal with
             | |- context [PrimFloat.ltb ?a ?b] => destruct (PrimFloat.ltb a b)
             end; simpl; now rewrite <- ?app_assoc, ?app_nil_r.
  - rewrite andb_true_r in H. apply orb_false_iff in H. destruct H as [H1 H2].
    rewrite H1, H2. simpl. now rewrite app_nil_r.
Qed.

Lemma check_metric_unjudged : forall violations m,
  unjudged m = true -> check_metric violations m = Raise TypeError.
Proof.
  intros violations m H. unfold check_metric, rule, unjudged in *.
  destruct (Metric.value m) as [v|]; simpl in *.
  - rewrite andb_false_r in H. discriminate.
  - rewrite andb_true_r in H.
    destruct (str_in "error_rate" (Metric.name m)); [reflexivity|].
    simpl in H. now rewrite H.
Qed.

Lemma alert_loop_app : forall l1 l2 acc,
  alert_loop (l1 ++ l2) acc =
  match alert_loop l1 acc with
  | Ok violations => alert_loop l2 violations
  | Raise e => Raise e
  end.
Proof.
  induction l1 as [|m l1 IH]; intros l2 acc; simpl; [reflexivity|].
  destruct (check_metric acc m); [apply IH | reflexivity].
Qed.

Lemma alert_loop_judged : forall l acc,
  Forall (fun m => unjudged m = false) l ->
  alert_loop l acc = Ok (acc ++ flat_map violations_of l)%list.
Proof.
  intros l acc H. revert acc. induction H as [|m l Hm Hl IH]; intros acc; simpl.
  - now rewrite app_nil_r.
  - now rewrite check_metric_judged, IH, <- app_assoc.
Qed.

Lemma alert_loop_unjudged : forall l acc,
  existsb unjudged l = true -> alert_loop l acc = Raise TypeError.
Proof.
  induction l as [|m l IH]; intros acc H; simpl in *; [discriminate|].
  destruct (unjudged m) eqn:E.
  - now rewrite check_metric_unjudged.
  - rewrite check_metric_judged by exact E. now apply IH.
Qed.

(** [alert_rules] either judges every row of its window or raises
    [TypeError]. *)
Lemma alert_loop_cases : forall l acc,
  (existsb unjudged l = false /\
   alert_loop l acc = Ok (acc ++ flat_map violations_of l)%list) \/
  (existsb unjudged l = true /\ alert_loop l acc = Raise TypeError).
Proof.
  intros l acc. destruct (existsb unjudged l) eqn:E.
  - right. split; [reflexivity | now apply alert_loop_unjudged].
  - left. split; [reflexivity|]. apply alert_loop_judged.
    apply Forall_forall. intros m Hm.
    destruct (unjudged m) eqn:U; [|reflexivity].
    assert (X : existsb unjudged l = true)
      by (apply existsb_exists; now exists m).
    congruence.
Qed.

Lemma in_if_singleton : forall (A : Type) (c : bool) (y x : A),
  In x (if c then [y] else []) <-> x = y /\ c = true.
Proof.
  intros A [] y x; simpl; split.
  - intros [H|[]]. now split.
  - intros [H _]. now left.
  - intros [].
  - intros [_ H]. discriminate.
Qed.

Lemma violations_of_In : forall x m,
  In x (violations_of m) <->
  exists v, Metric.value m = Some v /\
    ((x = Violation.mk (Metric.name m) (Some v)
                       (Float 0x1.999999999999ap-5) "high" /\
      str_in "error_rate" (Metric.name m) = true /\
      PrimFloat.ltb 0x1.999999999999ap-5 v = true) \/
     (x = Violation.mk (Metric.name m) (Some v) (Int 500) "medium" /\
      str_in "p99_latency" (Metric.name m) = true /\
      PrimFloat.ltb 500 v = true)).
Proof.
  intros x m. unfold violations_of.
  rewrite in_app_iff, !in_if_singleton, !andb_true_iff.
  destruct (Metric.value m) as [v|]; simpl.
  - split.
    + intros H. exists v. split; [reflexivity | tauto].
    + intros [v' [E H]]. injection E as <-. tauto.
  - split.
    + intros [[_ [_ H]]|[_ [_ H]]]; discriminate.
    + intros [v [E _]]. discriminate.
Qed.

Lemma in_window_5 : forall now db m,
  In m (get_metrics now None None 5 db) <->
  In m (metrics db) /\ now - minutes 5 < Metric.timestamp m.
Proof.
  intros now db m. rewrite get_metrics_In. unfold name_matches. simpl.
  intuition lia.
Qed.

Lemma window_5_filter : forall now db,
  get_metrics now None None 5 db =
  filter (fun m => now - minutes 5 <? Metric.timestamp m) (metrics db).
Proof.
  intros now db. unfold get_metrics, name_matches. simpl.
  apply filter_ext. intros m. apply andb_true_r.
Qed.

(** C1 (as amended): when every metric stored strictly less than 5 minutes
    before the call whose name contains ["error_rate"] or ["p99_latency"] has
    a value (is not NULL), [alert_rules] returns the list, in table order, of
    the violations of the two rules.  A row with value [v] gets the violation
    [{metric: name, value: v, threshold: 0.05, severity: "high"}] iff its
    name contains ["error_rate"] and [v > 0.05], and the violation
    [{metric: name, value: v, threshold: 500, severity: "medium"}] iff its
    name contains ["p99_latency"] and [v > 500]; the two checks do not
    exclude each other; a value equal to the threshold triggers nothing; and
    nothing else is reported. *)
Theorem alert_rules_violations : forall now db,
  (forall m, In m (metrics db) -> now - minutes 5 < Metric.timestamp m ->
     str_in "error_rate" (Metric.name m) = true \/
     str_in "p99_latency" (Metric.name m) = true ->
     Metric.value m <> None) ->
  exists violations,
    alert_rules now db = Ok violations /\
    violations =
      flat_map
        (fun m =>
           (if str_in "error_rate" (Metric.name m)
               && exceeds (Metric.value m) 0x1.999999999999ap-5
            then [Violation.mk (Metric.name m) (Metric.value m)
                               (Float 0x1.999999999999ap-5) "high"]
            else []) ++
           (if str_in "p99_latency" (Metric.name m)
               && exceeds (Metric.value m) 500
            then [Violation.mk (Metric.name m) (Metric.value m)
                               (Int 500) "medium"]
            else []))%list
        (filter (fun m => now - minutes 5 <? Metric.timestamp m)
                (metrics db)) /\
    (forall m v, In m (metrics db) ->
       now - minutes 5 < Metric.timestamp m -> Metric.value m = Some v ->
       (In (Violation.mk (Metric.name m) (Some v)
                         (Float 0x1.999999999999ap-5) "high") violations <->
        str_in "error_rate" (Metric.name m) = true /\
        PrimFloat.ltb 0x1.999999999999ap-5 v = true) /\
       (In (Violation.mk (Metric.name m) (Some v) (Int 500) "medium")
           violations <->
        str_in "p99_latency" (Metric.name m) = true /\
        PrimFloat.ltb 500 v = true) /\
       (v = 0x1.999999999999ap-5%float ->
        ~ In (Violation.mk (Metric.name m) (Some v)
                           (Float 0x1.999999999999ap-5) "high") violations) /\
       (v = 500%float ->
        ~ In (Violation.mk (Metric.name m) (Some v) (Int 500) "medium")
             violations)) /\
    (forall x, In x violations ->
       exists m v,
         In m (metrics db) /\ now - minutes 5 < Metric.timestamp m /\
         Metric.value m = Some v /\
         ((x = Violation.mk (Metric.name m) (Some v)
                            (Float 0x1.999999999999ap-5) "high" /\
           str_in "error_rate" (Metric.name m) = true /\
           PrimFloat.ltb 0x1.999999999999ap-5 v = true) \/
          (x = Violation.mk (Metric.name m) (Some v) (Int 500) "medium" /\
           str_in "p99_latency" (Metric.name m) = true /\
           PrimFloat.ltb 500 v = true))).
Proof.
  intros now db Hvalue.
  assert (J : Forall (fun m => unjudged m = false)
                     (get_metrics now None None 5 db)).
  { apply Forall_forall. intros m Hm. apply in_window_5 in Hm.
    destruct Hm as [Hin Hw]. unfold unjudged.
    destruct (str_in "error_rate" (Metric.name m)
              || str_in "p99_latency" (Metric.name m)) eqn:E;
      [|reflexivity].
    apply orb_true_iff in E. specialize (Hvalue m Hin Hw E).
    now destruct (Metric.value m). }
  assert (M : forall x,
            In x (flat_map violations_of (get_metrics now None None 5 db)) <->
            exists m v,
              In m (metrics db) /\ now - minutes 5 < Metric.timestamp m /\
              Metric.value m = Some v /\
              ((x = Violation.mk (Metric.name m) (Some v)
                                 (Float 0x1.999999999999ap-5) "high" /\
                str_in "error_rate" (Metric.name m) = true /\
                PrimFloat.ltb 0x1.999999999999ap-5 v = true) \/
               (x = Violation.mk (Metric.name m) (Some v) (Int 500) "medium" /\
                str_in "p99_latency" (Metric.name m) = true /\
                PrimFloat.ltb 500 v = true))).
  { intros x. rewrite in_flat_map. split.
    - intros [m [Hm Hx]]. apply in_window_5 in Hm. destruct Hm as [Hin Hw].
      apply violations_of_In in Hx. destruct Hx as [v [E Hx]].
      now exists m, v.
    - intros [m [v [Hin [Hw [E Hx]]]]]. exists m.
      split; [now apply in_window_5|]. apply violations_of_In. now exists v. }
  exists (flat_map violations_of (get_metrics now None None 5 db)).
  split; [|split; [|split]].
  - unfold alert_rules. now rewrite alert_loop_judged.
  - now rewrite window_5_filter.
  - intros m v Hin Hw E.
    assert (Hhigh :
              In (Violation.mk (Metric.name m) (Some v)
                               (Float 0x1.999999999999ap-5) "high")
                 (flat_map violations_of (get_metrics now None None 5 db)) <->
              str_in "error_rate" (Metric.name m) = true /\
              PrimFloat.ltb 0x1.999999999999ap-5 v = true).
    { rewrite M. split.
      - intros [m' [v' [_ [_ [_ [[Hx [H1 H2]]|[Hx _]]]]]]];
          [|discriminate Hx].
        injection Hx as Hn Hv. now rewrite Hn, Hv.
      - intros [H1 H2]. exists m, v. auto 10. }
    assert (Hmed :
              In (Violation.mk (Metric.name m) (Some v) (Int 500) "medium")
                 (flat_map violations_of (get_metrics now None None 5 db)) <->
              str_in "p99_latency" (Metric.name m) = true /\
              PrimFloat.ltb 500 v = true).
    { rewrite M. split.
      - intros [m' [v' [_ [_ [_ [[Hx _]|[Hx [H1 H2]]]]]]]];
          [discriminate Hx|].
        injection Hx as Hn Hv. now rewrite Hn, Hv.
      - intros [H1 H2]. exists m, v. auto 10. }
    split; [exact Hhigh | split; [exact Hmed | split]].
    + intros -> H. apply Hhigh in H. destruct H as [_ H]. discriminate H.
    + intros -> H. apply Hmed in H. destruct H as [_ H]. discriminate H.
  - intros x Hx. now apply M.
Qed.

(** The reading of the spec example: a lone [gateway.error_rate] of 0.10
    gives one ["high"] violation, a lone [gateway.p99_latency_ms] of 600 one
    ["medium"] violation, the thresholds themselves give none, and a name
    matching both rules gives both. *)
Example alert_rules_examples :
  let m1 := Metric.mk "a" "gateway.error_rate" (Some 0x1.999999999999ap-4%float)
                      [] 1000 "gauge" in
  let m2 := Metric.mk "b" "gateway.p99_latency_ms" (Some 600%float) [] 1000
                      "gauge" in
  let m3 := Metric.mk "c" "gateway.error_rate" (Some 0x1.999999999999ap-5%float)
                      [] 1000 "gauge" in
  let m4 := Metric.mk "d" "gateway.p99_latency_ms" (Some 500%float) [] 1000
                      "gauge" in
  alert_rules 2000 (mkDB [m1] [] []) =
    Ok [Violation.mk "gateway.error_rate" (Some 0x1.999999999999ap-4%float)
                     (Float 0x1.999999999999ap-5) "high"] /\
  alert_rules 2000 (mkDB [m2] [] []) =
    Ok [Violation.mk "gateway.p99_latency_ms" (Some 600%float) (Int 500)
                     "medium"] /\
  alert_rules 2000 (mkDB [m3; m4] [] []) = Ok [] /\
  alert_rules 2000 (mkDB [both_row] [] []) =
    Ok [Violation.mk "error_rate.p99_latency" (Some 600%float)
                     (Float 0x1.999999999999ap-5) "high";
        Violation.mk "error_rate.p99_latency" (Some 600%float) (Int 500)
                     "medium"] /\
  alert_rules (1000 + minutes 5) (mkDB [m1; m2] [] []) = Ok [].
Proof. repeat split; reflexivity. Qed.

(** The amended C1 at a row whose name matches both rules: both violations
    are reported. *)
Lemma alert_rules_violations_witness :
  exists violations,
    alert_rules 2000 (mkDB [both_row] [] []) = Ok violations /\
    In (Violation.mk "error_rate.p99_latency" (Some 600%float)
                     (Float 0x1.999999999999ap-5) "high") violations /\
    In (Violation.mk "error_rate.p99_latency" (Some 600%float) (Int 500)
                     "medium") violations.
Proof.
  assert (Hvalue : forall m, In m (metrics (mkDB [both_row] [] [])) ->
            2000 - minutes 5 < Metric.timestamp m ->
            str_in "error_rate" (Metric.name m) = true \/
            str_in "p99_latency" (Metric.name m) = true ->
            Metric.value m <> None).
  { intros m [<-|[]] _ _. discriminate. }
  destruct (alert_rules_violations 2000 (mkDB [both_row] [] []) Hvalue)
    as [violations [E [_ [H _]]]].
  assert (Hw : 2000 - minutes 5 < Metric.timestamp both_row)
    by (vm_compute; reflexivity).
  destruct (H both_row 600%float (or_introl eq_refl) Hw eq_refl)
    as [Hhigh [Hmedium _]].
  exists violations. split; [exact E | split].
  - apply Hhigh. split; reflexivity.
  - apply Hmedium. split; reflexivity.
Defined.

(** C1 fails as stated.  In [nan_db] an error rate recorded as NaN is stored
    as NULL beside an error rate of 0.10, both within 5 minutes: the
    comparison of the first raises [TypeError], so [alert_rules] reports no
    violation for the second, whose name contains ["error_rate"] and whose
    value is above 0.05. *)
Lemma alert_rules_raises_on_null :
  metrics nan_db =
    [ Metric.mk "m1" "a.error_rate" None [] 100 "gauge";
      Metric.mk "m2" "b.error_rate" (Some 0x1.999999999999ap-4%float) [] 200
                "gauge" ] /\
  alert_rules 300 nan_db = Raise TypeError /\
  str_in "error_rate" "b.error_rate" = true /\
  PrimFloat.ltb 0x1.999999999999ap-5 0x1.999999999999ap-4 = true.
Proof. repeat split; reflexivity. Qed.

(** ** Service dashboard *)

Lemma find_metric_filter : forall (f g : Metric.row -> bool) nm l,
  (forall m, Metric.name m = nm -> f m = true) ->
  _find_metric (filter (fun m => g m && f m) l) nm =
  _find_metric (filter g l) nm.
Proof.
  intros f g nm l Hf. induction l as [|m l IH]; simpl; [reflexivity|].
  destruct (g m); simpl.
  - destruct (f m) eqn:Hfm; simpl.
    + now rewrite IH.
    + destruct (String.eqb_spec (Metric.name m) nm) as [E|_]; [|exact IH].
      rewrite (Hf m E) in Hfm. discriminate.
  - exact IH.
Qed.

Lemma find_metric_absent : forall l nm,
  (forall m, In m l -> Metric.name m <> nm) -> _find_metric l nm = None.
Proof.
  intros l nm H. induction l as [|m l IH]; simpl; [reflexivity|].
  destruct (String.eqb_spec (Metric.name m) nm) as [E|_].
  - exfalso. apply (H m); simpl; auto.
  - apply IH. intros m' Hin. apply H. now right.
Qed.

(** The lookup returns the column [value] of the first row of that name,
    NULL or not. *)
Lemma find_metric_first : forall older m newer nm,
  Metric.name m = nm ->
  (forall m', In m' older -> Metric.name m' <> nm) ->
  _find_metric (older ++ m :: newer) nm = Metric.value m.
Proof.
  intros older m newer nm Hn Hold. induction older as [|o older IH]; simpl.
  - now rewrite Hn, String.eqb_refl.
  - destruct (String.eqb_spec (Metric.name o) nm) as [E|_].
    + exfalso. apply (Hold o); simpl; auto.
    + apply IH. intros m' Hin. apply Hold. now right.
Qed.

Lemma find_metric_cases : forall l nm,
  (forall m, In m l -> Metric.name m <> nm) \/
  (exists older m newer,
     l = (older ++ m :: newer)%list /\ Metric.name m = nm /\
     forall m', In m' older -> Metric.name m' <> nm).
Proof.
  intros l nm. induction l as [|m l IH].
  - left. intros m [].
  - destruct (String.eqb_spec (Metric.name m) nm) as [E|E].
    + right. exists [], m, l. simpl. repeat split; [exact E | intros m' []].
    + destruct IH as [IH|[older [m' [newer [-> [Hn Hold]]]]]].
      * left. intros m' [<-|Hin]; auto.
      * right. exists (m :: older), m', newer. simpl.
        repeat split; [exact Hn|]. intros m'' [<-|Hin]; auto.
Qed.

Lemma find_metric_None : forall l nm,
  _find_metric l nm = None <->
  (forall m, In m l -> Metric.name m <> nm) \/
  (exists older m newer,
     l = (older ++ m :: newer)%list /\ Metric.name m = nm /\
     Metric.value m = None /\
     forall m', In m' older -> Metric.name m' <> nm).
Proof.
  intros l nm. split.
  - intros H.
    destruct (find_metric_cases l nm) as [A|[older [m [newer [E [Hn Hold]]]]]].
    + now left.
    + right. exists older, m, newer. repeat split; trivial.
      rewrite <- H, E. symmetry. now apply find_metric_first.
  - intros [A|[older [m [newer [-> [Hn [Hv Hold]]]]]]].
    + now apply find_metric_absent.
    + rewrite <- Hv. now apply find_metric_first.
Qed.

Lemma find_metric_Some : forall l nm v,
  _find_metric l nm = Some v <->
  exists older m newer,
    l = (older ++ m :: newer)%list /\ Metric.name m = nm /\
    Metric.value m = Some v /\ forall m', In m' older -> Metric.name m' <> nm.
Proof.
  intros l nm v. split.
  - intros H.
    destruct (find_metric_cases l nm) as [A|[older [m [newer [E [Hn Hold]]]]]].
    + rewrite find_metric_absent in H by exact A. discriminate.
    + exists older, m, newer. repeat split; trivial.
      rewrite <- H, E. symmetry. now apply find_metric_first.
  - intros [older [m [newer [-> [Hn [Hv Hold]]]]]].
    rewrite <- Hv. now apply find_metric_first.
Qed.

(** The filter [LIKE '%service%'] keeps every row named [service ++ suffix],
    so the lookup sees the same first match as on the whole window. *)
Lemma find_metric_dashboard : forall now service suffix db,
  _find_metric (get_metrics now (Some service) None 60 db) (service ++ suffix) =
  _find_metric (get_metrics now None None 60 db) (service ++ suffix).
Proof.
  intros now service suffix db. unfold get_metrics.
  rewrite find_metric_filter.
  - symmetry. apply (find_metric_filter (fun _ => true)). reflexivity.
  - intros m Hm. apply name_matches_literal, str_in_app.
    exists EmptyString, suffix. now rewrite Hm.
Qed.

Lemma sql_limit_nil : forall (A : Type) n, sql_limit n (@nil A) = [].
Proof.
  intros A n. unfold sql_limit. destruct (n <? 0); [reflexivity|].
  apply firstn_nil.
Qed.

Lemma get_logs_no_rows : forall now service level w limit db,
  service <> EmptyString ->
  (forall l, In l (logs db) -> LogEntry.service l <> service) ->
  get_logs now (Some service) level w limit db = [].
Proof.
  intros now service level w limit db Hs Hnone. unfold get_logs.
  apply truthy_Some in Hs. rewrite Hs.
  replace (filter _ (logs db)) with (@nil LogEntry.row).
  - apply sql_limit_nil.
  - symmetry. induction (logs db) as [|l ls IH]; simpl; [reflexivity|].
    destruct (String.eqb_spec (LogEntry.service l) service) as [E|_].
    + exfalso. apply (Hnone l); simpl; auto.
    + rewrite andb_false_r. simpl. apply IH.
      intros l' Hin. apply Hnone. now right.
Qed.

(** C3 (as amended): each dashboard field is the column [value] of the
    first row, in the order the rows were stored, among the metrics of the
    last 60 minutes whose name equals the service name followed by
    [.requests_per_minute], [.error_rate], [.p50_latency_ms],
    [.p95_latency_ms] or [.p99_latency_ms].  The field is null exactly when
    the window holds no row of that name or the first such row holds NULL (a
    value recorded as NaN); it is [v] exactly when the first such row holds
    [v].  On the empty store, and for a named service with no rows of its
    own, the five fields are null and [recent_errors] is empty. *)
Theorem service_dashboard_first_match : forall now service db,
  (forall field suffix, In (field, suffix) dashboard_fields ->
     let reading :=
       field (Dashboard.metrics (service_dashboard now service db)) in
     let window := get_metrics now None None 60 db in
     reading = _find_metric window (service ++ suffix) /\
     (reading = None <->
      (forall m, In m window -> Metric.name m <> (service ++ suffix)%string) \/
      (exists older m newer,
         window = (older ++ m :: newer)%list /\
         Metric.name m = (service ++ suffix)%string /\
         Metric.value m = None /\
         forall m', In m' older ->
                    Metric.name m' <> (service ++ suffix)%string)) /\
     (forall v, reading = Some v <->
        exists older m newer,
          window = (older ++ m :: newer)%list /\
          Metric.name m = (service ++ suffix)%string /\
          Metric.value m = Some v /\
          forall m', In m' older ->
                     Metric.name m' <> (service ++ suffix)%string)) /\
  (service <> EmptyString ->
   (forall l, In l (logs db) -> LogEntry.service l <> service) ->
   Dashboard.recent_errors (service_dashboard now service db) = []) /\
  service_dashboard now service empty_db =
    Dashboard.mk service (Dashboard.mk_metrics None None None None None) [].
Proof.
  intros now service db. split; [|split].
  - intros field suffix Hin reading window.
    assert (E : reading = _find_metric window (service ++ suffix)).
    { subst reading window. unfold service_dashboard. simpl in Hin |- *.
      destruct Hin as [H|[H|[H|[H|[H|[]]]]]]; injection H as <- <-;
        apply find_metric_dashboard. }
    split; [exact E | rewrite E; split].
    + apply find_metric_None.
    + intros v. apply find_metric_Some.
  - intros Hs Hnone. unfold service_dashboard. simpl.
    now apply get_logs_no_rows.
  - reflexivity.
Qed.

(** The amended C3 at [gateway_db]: the error-rate field is the first match
    of the window. *)
Lemma service_dashboard_first_match_witness :
  Dashboard.error_rate
    (Dashboard.metrics (service_dashboard 400 "gateway" gateway_db)) =
  _find_metric (get_metrics 400 None None 60 gateway_db) "gateway.error_rate".
Proof.
  exact (proj1 (proj1 (service_dashboard_first_match 400 "gateway" gateway_db)
                  Dashboard.error_rate ".error_rate"
                  (or_intror (or_introl eq_refl)))).
Defined.

(** A reading recorded as NaN: in [nan_db] the row [a.error_rate] is in the
    window and holds NULL, and the dashboard of ["a"] shows null for it. *)
Example service_dashboard_null_reading :
  _find_metric (get_metrics 300 None None 60 nan_db) "a.error_rate" = None /\
  Dashboard.error_rate
    (Dashboard.metrics (service_dashboard 300 "a" nan_db)) = None /\
  map Metric.name (get_metrics 300 None None 60 nan_db) =
    ["a.error_rate"; "b.error_rate"].
Proof. repeat split; reflexivity. Qed.

(** C3 fails as stated.  In [gateway_db] the reading [gateway.error_rate]
    was stored twice within the hour, 0.25 first and 0.5 last: the dashboard
    shows 0.25, not the most recent 0.5.  And the row named
    [gateway.p99_latency] does not fill the field [p99_latency], which is
    looked up under [gateway.p99_latency_ms]. *)
Lemma service_dashboard_not_most_recent :
  Dashboard.error_rate
    (Dashboard.metrics (service_dashboard 400 "gateway" gateway_db)) =
    Some 0.25%float /\
  spec_most_recent (get_metrics 400 None None 60 gateway_db)
                   "gateway.error_rate" = Some 0.5%float /\
  Dashboard.p99_latency
    (Dashboard.metrics (service_dashboard 400 "gateway" gateway_db)) = None /\
  spec_most_recent (get_metrics 400 None None 60 gateway_db)
                   "gateway.p99_latency" = Some 700%float.
Proof. repeat split; reflexivity. Qed.

(** ** Ordering of query results *)

Section Ordering.
Context {A : Type}.
Variable key : A -> Z.

Lemma insert_by_perm : forall (le : A -> A -> bool) x l,
  Permutation (insert_by le x l) (x :: l).
Proof.
  intros le x l. induction l as [|y l IH]; simpl.
  - apply Permutation_refl.
  - destruct (le x y).
    + apply Permutation_refl.
    + apply perm_trans with (y :: x :: l).
      * now apply perm_skip.
      * apply perm_swap.
Qed.

Lemma sort_by_perm : forall (le : A -> A -> bool) l,
  Permutation (sort_by le l) l.
Proof.
  intros le l. induction l as [|x l IH]; simpl.
  - apply perm_nil.
  - apply perm_trans with (x :: sort_by le l).
    + apply insert_by_perm.
    + now apply perm_skip.
Qed.

Lemma insert_by_hd : forall x y l,
  key y <= key x ->
  HdRel (fun a b => key a <= key b) y l ->
  HdRel (fun a b => key a <= key b) y
        (insert_by (fun a b => key a <=? key b) x l).
Proof.
  intros x y l Hyx Hy. destruct l as [|z l]; simpl.
  - now constructor.
  - destruct (key x <=? key z); constructor; trivial.
    now inversion Hy.
Qed.

Lemma insert_by_sorted : forall x l,
  Sorted (fun a b => key a <= key b) l ->
  Sorted (fun a b => key a <= key b)
         (insert_by (fun a b => key a <=? key b) x l).
Proof.
  intros x l Hl. induction Hl as [|y l Hl IH Hy]; simpl.
  - repeat constructor.
  - destruct (key x <=? key y) eqn:E.
    + constructor; [now constructor|].
      constructor. lia.
    + constructor; [exact IH|].
      apply insert_by_hd; [lia | exact Hy].
Qed.

Lemma order_by_asc_sorted : forall l,
  StronglySorted (fun a b => key a <= key b) (order_by_asc key l).
Proof.
  intros l. apply Sorted_StronglySorted.
  - intros x y z. lia.
  - unfold order_by_asc, sort_by.
    induction l as [|x l IH]; simpl; [constructor|].
    now apply insert_by_sorted.
Qed.

Lemma order_by_asc_perm : forall l, Permutation (order_by_asc key l) l.
Proof. intros l. apply sort_by_perm. Qed.

End Ordering.

Lemma filter_perm : forall (A : Type) (f : A -> bool) l l',
  Permutation l l' -> Permutation (filter f l) (filter f l').
Proof.
  intros A f l l' H. induction H as [|x l l' H IH|x y l|l l' l'' H1 IH1 H2 IH2];
    simpl.
  - apply perm_nil.
  - destruct (f x); [now apply perm_skip | exact IH].
  - destruct (f x), (f y); try apply Permutation_refl. apply perm_swap.
  - now apply perm_trans with (filter f l').
Qed.

(** ** Traces *)

Lemma waterfall_map : forall now l acc,
  fold_left (fun waterfall span => (waterfall ++ [waterfall_entry now span])%list)
            l acc =
  (acc ++ map (waterfall_entry now) l)%list.
Proof.
  intros now l. induction l as [|s l IH]; intros acc; simpl.
  - now rewrite app_nil_r.
  - now rewrite IH, <- app_assoc.
Qed.

Lemma get_trace_waterfall : forall now trace_id db,
  Trace.waterfall (get_trace now trace_id db) =
  map (waterfall_entry now) (Trace.spans (get_trace now trace_id db)).
Proof.
  intros now trace_id db. unfold get_trace. simpl. apply waterfall_map.
Qed.

Lemma get_trace_spans : forall now trace_id db,
  Trace.spans (get_trace now trace_id db) =
  order_by_asc Span.start_ts
    (filter (fun r => String.eqb (Span.trace_id r) trace_id) (spans db)).
Proof. reflexivity. Qed.

(** C4: [get_trace] returns the trace id it was given and, as [spans], a
    rearrangement of exactly the stored spans carrying that trace id, in
    ascending order of start time whatever the order of the table; a span is
    returned iff it is stored under that trace id, so two spans of one trace
    with different span ids both appear; and a trace id with no stored span
    gives [spans = []] and an empty waterfall, as an ordinary result. *)
Theorem get_trace_spans_sorted : forall now trace_id db,
  Trace.trace_id (get_trace now trace_id db) = trace_id /\
  Permutation (Trace.spans (get_trace now trace_id db))
    (filter (fun r => String.eqb (Span.trace_id r) trace_id) (spans db)) /\
  (forall s, In s (Trace.spans (get_trace now trace_id db)) <->
             In s (spans db) /\ Span.trace_id s = trace_id) /\
  StronglySorted (fun a b => Span.start_ts a <= Span.start_ts b)
    (Trace.spans (get_trace now trace_id db)) /\
  (forall db', Permutation (spans db) (spans db') ->
     Permutation (Trace.spans (get_trace now trace_id db))
                 (Trace.spans (get_trace now trace_id db')) /\
     StronglySorted (fun a b => Span.start_ts a <= Span.start_ts b)
       (Trace.spans (get_trace now trace_id db'))) /\
  ((forall s, In s (spans db) -> Span.trace_id s <> trace_id) ->
   get_trace now trace_id db = Trace.mk trace_id [] []).
Proof.
  intros now trace_id db.
  assert (Hperm : forall d,
            Permutation (Trace.spans (get_trace now trace_id d))
              (filter (fun r => String.eqb (Span.trace_id r) trace_id)
                      (spans d))).
  { intros d. rewrite get_trace_spans. apply order_by_asc_perm. }
  split; [reflexivity | split; [apply Hperm | split; [|split; [|split]]]].
  - intros s. split.
    + intros H. apply (Permutation_in _ (Hperm db)) in H.
      apply filter_In in H. now rewrite String.eqb_eq in H.
    + intros [Hin Ht]. apply (Permutation_in _ (Permutation_sym (Hperm db))).
      apply filter_In. now rewrite String.eqb_eq.
  - rewrite get_trace_spans. apply order_by_asc_sorted.
  - intros db' Hdb. split.
    + apply perm_trans with
        (filter (fun r => String.eqb (Span.trace_id r) trace_id) (spans db)).
      * apply Hperm.
      * apply perm_trans with
          (filter (fun r => String.eqb (Span.trace_id r) trace_id) (spans db')).
        -- now apply filter_perm.
        -- apply Permutation_sym, Hperm.
    + rewrite get_trace_spans. apply order_by_asc_sorted.
  - intros Hnone. unfold get_trace.
    replace (filter _ (spans db)) with (@nil Span.row); [reflexivity|].
    symmetry. induction (spans db) as [|s l IH]; simpl; [reflexivity|].
    destruct (String.eqb_spec (Span.trace_id s) trace_id) as [E|_].
    + exfalso. apply (Hnone s); simpl; auto.
    + apply IH. intros s' Hin. apply Hnone. now right.
Qed.

(** C4 at [two_spans_db]: no span is stored under the trace id ["none"]. *)
Lemma get_trace_spans_sorted_witness :
  get_trace 30 "none" two_spans_db = Trace.mk "none" [] [].
Proof.
  apply (proj2 (proj2 (proj2 (proj2 (proj2
           (get_trace_spans_sorted 30 "none" two_spans_db)))))).
  intros s Hin. vm_compute in Hin.
  destruct Hin as [<-|[<-|[]]]; discriminate.
Defined.

(** Two spans of one trace stored latest-first come back earliest-first. *)
Example get_trace_reorders :
  let late := Span.mk "t" "s1" None "worker" "job" 30 None "ok" [] in
  let early := Span.mk "t" "s2" None "gateway" "GET /" 10 (Some 20) "ok" [] in
  Trace.spans (get_trace 50 "t" (mkDB [] [late; early] [])) = [early; late].
Proof. reflexivity. Qed.

(** C10: the waterfall of [get_trace] has one entry per returned span, in the
    same order, and the entry at each index carries the service, operation
    and status of the span at that index. *)
Theorem get_trace_waterfall_aligned : forall now trace_id db,
  List.length (Trace.waterfall (get_trace now trace_id db)) =
  List.length (Trace.spans (get_trace now trace_id db)) /\
  (forall i w, nth_error (Trace.waterfall (get_trace now trace_id db)) i = Some w <->
     exists s, nth_error (Trace.spans (get_trace now trace_id db)) i = Some s /\
               w = waterfall_entry now s) /\
  Forall2
    (fun w s =>
       Waterfall.service w = Span.service s /\
       Waterfall.operation w = Span.operation s /\
       Waterfall.status w = Span.status s)
    (Trace.waterfall (get_trace now trace_id db))
    (Trace.spans (get_trace now trace_id db)).
Proof.
  intros now trace_id db. rewrite get_trace_waterfall.
  generalize (Trace.spans (get_trace now trace_id db)) as l. intros l.
  split; [apply length_map | split].
  - intros i w. rewrite nth_error_map.
    destruct (nth_error l i) as [s|]; simpl.
    + split.
      * intros H. injection H as <-. now exists s.
      * intros [s' [H ->]]. now injection H as ->.
    + split; [discriminate | intros [s' [H _]]; discriminate].
  - induction l as [|s l IH]; simpl; constructor; auto.
Qed.

(** ** Span durations *)

Lemma duration_ms_exact : forall d : Z,
  (total_seconds d * 1000 == d # 1000)%Q.
Proof. intros d. unfold total_seconds, Qeq. simpl. lia. Qed.

Lemma duration_ms_nonneg : forall d : Z,
  0 <= d -> (0 <= total_seconds d * 1000)%Q.
Proof. intros d H. unfold total_seconds, Qle. simpl. lia. Qed.

Lemma duration_ms_lt : forall d d' : Z,
  d < d' <-> (total_seconds d * 1000 < total_seconds d' * 1000)%Q.
Proof. intros d d'. unfold total_seconds, Qlt. simpl. lia. Qed.

Lemma span_times_ok_later : forall t t' r,
  t <= t' -> span_times_ok t r -> span_times_ok t' r.
Proof.
  intros t t' r Ht [Hs He]. split; [lia|].
  destruct (Span.end_ts r); [lia | exact I].
Qed.

Lemma update_span_times_ok : forall t t' span_id status tags r,
  t <= t' -> span_times_ok t r ->
  span_times_ok t' (update_span t' span_id status tags r).
Proof.
  intros t t' span_id status tags r Ht Hr. unfold update_span.
  destruct (String.eqb (Span.span_id r) span_id).
  - destruct Hr as [Hs _]. split; simpl; lia.
  - now apply span_times_ok_later with t.
Qed.

Lemma store_after_metric_spans : forall now uuid name value labels type db,
  spans (store_after db (record_metric now uuid name value labels type db)) =
  spans db.
Proof.
  intros. unfold record_metric. now destruct (existsb _ _).
Qed.

(** On a clock that never runs backwards no stored span ends before it
    starts, and none starts or ends after the last call. *)
Lemma history_span_times : forall t db,
  history t db -> Forall (span_times_ok t) (spans db).
Proof.
  intros t db H. induction H as [t|t t' c db H IH Ht].
  - constructor.
  - assert (IH' : Forall (span_times_ok t') (spans db)).
    { eapply Forall_impl; [|exact IH]. intros r. now apply span_times_ok_later. }
    destruct c; simpl.
    + now rewrite store_after_metric_spans.
    + unfold increment. now rewrite store_after_metric_spans.
    + unfold start_span. destruct (existsb _ _); simpl; [exact IH'|].
      apply Forall_app. split; [exact IH'|].
      constructor; [|constructor]. split; simpl; [lia | exact I].
    + rewrite Forall_map. eapply Forall_impl; [|exact IH].
      intros r. now apply update_span_times_ok.
    + unfold log. now destruct (existsb _ _).
Qed.

(** C5: for the span at each index of a [get_trace] result, the waterfall
    entry at that index has [duration_ms] equal to [end - start] in
    milliseconds when the span has ended, the same at every call, and never
    negative in a store written on a clock that does not run backwards; it
    equals [now - start] in milliseconds, [now] being the time of the call,
    when the span is in flight.  Hence of two calls on the same store the
    in-flight span's duration is strictly larger in the second exactly when
    the clock has advanced between them. *)
Theorem get_trace_durations : forall db trace_id now1 now2,
  Trace.spans (get_trace now2 trace_id db) =
  Trace.spans (get_trace now1 trace_id db) /\
  forall i s,
    nth_error (Trace.spans (get_trace now1 trace_id db)) i = Some s ->
    exists w1 w2,
      nth_error (Trace.waterfall (get_trace now1 trace_id db)) i = Some w1 /\
      nth_error (Trace.waterfall (get_trace now2 trace_id db)) i = Some w2 /\
      match Span.end_ts s with
      | Some e =>
          (Waterfall.duration_ms w1 == (e - Span.start_ts s) # 1000)%Q /\
          Waterfall.duration_ms w2 = Waterfall.duration_ms w1 /\
          (forall t, history t db -> (0 <= Waterfall.duration_ms w1)%Q)
      | None =>
          (Waterfall.duration_ms w1 == (now1 - Span.start_ts s) # 1000)%Q /\
          (Waterfall.duration_ms w2 == (now2 - Span.start_ts s) # 1000)%Q /\
          (now1 < now2 <->
           (Waterfall.duration_ms w1 < Waterfall.duration_ms w2)%Q)
      end.
Proof.
  intros db trace_id now1 now2. split; [reflexivity|].
  intros i s Hs.
  exists (waterfall_entry now1 s), (waterfall_entry now2 s).
  split; [|split].
  - rewrite get_trace_waterfall, nth_error_map, Hs. reflexivity.
  - rewrite get_trace_waterfall, nth_error_map.
    change (Trace.spans (get_trace now2 trace_id db))
      with (Trace.spans (get_trace now1 trace_id db)).
    rewrite Hs. reflexivity.
  - unfold waterfall_entry. simpl.
    destruct (Span.end_ts s) as [e|] eqn:Hend.
    + split; [apply duration_ms_exact | split; [reflexivity|]].
      intros t Hhist. apply duration_ms_nonneg.
      assert (Hok : span_times_ok t s).
      { apply nth_error_In in Hs.
        pose proof (history_span_times t db Hhist) as Hall.
        rewrite Forall_forall in Hall. apply Hall.
        rewrite get_trace_spans in Hs.
        apply (Permutation_in _ (order_by_asc_perm Span.start_ts _)) in Hs.
        now apply filter_In in Hs. }
      destruct Hok as [_ Hok]. rewrite Hend in Hok. lia.
    + split; [apply duration_ms_exact | split; [apply duration_ms_exact|]].
      rewrite <- duration_ms_lt. lia.
Qed.

Lemma two_spans_history : history 30 two_spans_db.
Proof.
  unfold two_spans_db.
  apply (history_call 25 30); [|lia].
  apply (history_call 20 25); [|lia].
  apply (history_call 10 20); [|lia].
  apply (history_call 10 10); [|lia].
  apply history_init.
Qed.

(** C5 at [two_spans_db], queried at 40 and again at 50: the span ended
    after 15 microseconds shows 0.015 ms, and the span in flight since 20
    shows 0.02 ms, then 0.03 ms. *)
Lemma get_trace_durations_witness :
  exists w0 w1 w2,
    nth_error (Trace.waterfall (get_trace 40 "t" two_spans_db)) 0 = Some w0 /\
    nth_error (Trace.waterfall (get_trace 40 "t" two_spans_db)) 1 = Some w1 /\
    nth_error (Trace.waterfall (get_trace 50 "t" two_spans_db)) 1 = Some w2 /\
    (Waterfall.duration_ms w0 == 15 # 1000)%Q /\
    (0 <= Waterfall.duration_ms w0)%Q /\
    (Waterfall.duration_ms w1 == 20 # 1000)%Q /\
    (Waterfall.duration_ms w2 == 30 # 1000)%Q /\
    (Waterfall.duration_ms w1 < Waterfall.duration_ms w2)%Q.
Proof.
  destruct (proj2 (get_trace_durations two_spans_db "t" 40 50)
              0%nat
              (Span.mk "t" "a" None "gateway" "GET /" 10 (Some 25) "error"
                       [("code", "500")])
              eq_refl)
    as [w0 [_ [H0 [_ [E0 [_ P0]]]]]].
  destruct (proj2 (get_trace_durations two_spans_db "t" 40 50)
              1%nat
              (Span.mk "t" "b" (Some "a") "worker" "job" 20 None "ok" [])
              eq_refl)
    as [w1 [w2 [H1 [H2 [E1 [E2 L]]]]]].
  exists w0, w1, w2. simpl in E0, E1, E2, L.
  repeat (split; [assumption|]).
  split; [exact (P0 30 two_spans_history)|].
  repeat (split; [assumption|]).
  apply L. lia.
Defined.

(** The life of one span on an empty store: in flight after [start_span] at
    10, and after [end_span] at 25 ended with a duration of 15 microseconds,
    whatever the time of the query. *)
Example span_life :
  let started := run 10 (StartSpan "t" "a" "gateway" "GET /" None None)
                     empty_db in
  let ended := run 25 (EndSpan "a" "ok" None) started in
  Trace.spans (get_trace 12 "t" started) =
    [Span.mk "t" "a" None "gateway" "GET /" 10 None "ok" []] /\
  Trace.spans (get_trace 40 "t" ended) =
    [Span.mk "t" "a" None "gateway" "GET /" 10 (Some 25) "ok" []] /\
  map Waterfall.duration_ms (Trace.waterfall (get_trace 40 "t" ended)) =
    [(total_seconds 15 * 1000)%Q] /\
  Trace.waterfall (get_trace 99 "t" ended) =
    Trace.waterfall (get_trace 40 "t" ended).
Proof. repeat split; reflexivity. Qed.

(** ** Ending spans *)

Lemma update_span_other : forall now span_id status tags l,
  (forall r, In r l -> Span.span_id r <> span_id) ->
  map (update_span now span_id status tags) l = l.
Proof.
  intros now span_id status tags l H. induction l as [|r l IH]; simpl.
  - reflexivity.
  - rewrite IH by (intros r' Hin; apply H; now right).
    unfold update_span.
    destruct (String.eqb_spec (Span.span_id r) span_id) as [E|_];
      [|reflexivity].
    exfalso. apply (H r); simpl; auto.
Qed.

(** C6 (as amended): for a span id that no stored span carries, [end_span]
    returns normally, without any error, and leaves the store exactly as it
    was. *)
Theorem end_span_unknown_is_noop : forall now span_id status tags db,
  (forall r, In r (spans db) -> Span.span_id r <> span_id) ->
  end_span now span_id status tags db = Ok db.
Proof.
  intros now span_id status tags db H. unfold end_span.
  rewrite update_span_other by exact H. now destruct db.
Qed.

(** The amended C6 at [two_spans_db], whose spans are ["a"] and ["b"]. *)
Lemma end_span_unknown_is_noop_witness :
  end_span 40 "never-started" "ok" None two_spans_db = Ok two_spans_db.
Proof.
  apply end_span_unknown_is_noop.
  intros r Hin. vm_compute in Hin.
  destruct Hin as [<-|[<-|[]]]; discriminate.
Defined.

(** C6 fails as stated: ending a span that was never started raises nothing,
    on the empty store and on [two_spans_db] alike. *)
Lemma end_span_unknown_not_an_error :
  raises (end_span 40 "never-started" "ok" None empty_db) = false /\
  raises (end_span 40 "never-started" "error" (Some [("k", "v")])
                   two_spans_db) = false.
Proof. split; reflexivity. Qed.

Lemma update_span_twice : forall now1 now2 span_id st1 tags1 st2 tags2 r,
  update_span now2 span_id st2 tags2 (update_span now1 span_id st1 tags1 r) =
  update_span now2 span_id st2 tags2 r.
Proof.
  intros. unfold update_span.
  destruct (String.eqb (Span.span_id r) span_id) eqn:E; simpl; now rewrite E.
Qed.

Lemma update_span_fields : forall now span_id status tags r,
  Span.span_id r = span_id ->
  update_span now span_id status tags r =
  Span.mk (Span.trace_id r) span_id (Span.parent_span_id r) (Span.service r)
          (Span.operation r) (Span.start_ts r) (Some now) status tags.
Proof.
  intros now span_id status tags r E. unfold update_span.
  rewrite E, String.eqb_refl. reflexivity.
Qed.

Lemma update_span_id : forall now span_id status tags r,
  Span.span_id (update_span now span_id status tags r) = Span.span_id r.
Proof.
  intros. unfold update_span.
  now destruct (String.eqb (Span.span_id r) span_id).
Qed.

(** C9: ending a span a second time succeeds, and the store it leaves is the
    one the second call alone would leave: every stored span with that id
    keeps its trace, parent, service, operation and start, and carries the
    second call's end timestamp, status and tags. *)
Theorem end_span_twice_last_wins :
  forall now1 now2 span_id st1 tags1 st2 tags2 db,
  exists db1 db2,
    end_span now1 span_id st1 tags1 db = Ok db1 /\
    end_span now2 span_id st2 tags2 db1 = Ok db2 /\
    end_span now2 span_id st2 tags2 db = Ok db2 /\
    (forall r, In r (spans db) -> Span.span_id r = span_id ->
       In (Span.mk (Span.trace_id r) span_id (Span.parent_span_id r)
                   (Span.service r) (Span.operation r) (Span.start_ts r)
                   (Some now2) st2
                   (match tags2 with None => [] | Some t => t end))
          (spans db2)) /\
    (forall r', In r' (spans db2) -> Span.span_id r' = span_id ->
       Span.end_ts r' = Some now2 /\ Span.status r' = st2 /\
       Span.tags r' = match tags2 with None => [] | Some t => t end).
Proof.
  intros now1 now2 span_id st1 tags1 st2 tags2 db.
  eexists. eexists. split; [reflexivity|]. split; [reflexivity|].
  split; [|split].
  - unfold end_span. simpl. rewrite map_map.
    f_equal. f_equal. apply map_ext. intros r. symmetry.
    apply update_span_twice.
  - intros r Hin E. simpl. rewrite map_map.
    rewrite <- (update_span_fields now2 span_id st2 _ r E).
    rewrite <- (update_span_twice now1 now2 span_id st1
                  (match tags1 with None => [] | Some t => t end)).
    now apply (in_map (fun x => update_span now2 span_id st2 _
                                  (update_span now1 span_id st1 _ x))).
  - intros r' Hin E. simpl in Hin. rewrite in_map_iff in Hin.
    destruct Hin as [r [<- _]]. rewrite update_span_id in E.
    rewrite (update_span_fields now2 span_id st2 _ r E). simpl. auto.
Qed.

(** The span ["a"] of [two_spans_db], ended at 25 with status ["error"], is
    ended again at 40 with status ["ok"] and no tags. *)
Example end_span_again :
  match end_span 40 "a" "ok" None two_spans_db with
  | Ok db => map (fun r => (Span.span_id r, Span.end_ts r, Span.status r,
                            Span.tags r)) (spans db)
  | Raise _ => []
  end = [("a", Some 40, "ok", []); ("b", None, "ok", [])].
Proof. reflexivity. Qed.

(** ** Recording metrics *)

Lemma fresh_metric_id : forall uuid l,
  (forall r, In r l -> Metric.id r <> uuid) ->
  existsb (fun r => String.eqb (Metric.id r) uuid) l = false.
Proof.
  intros uuid l H. induction l as [|r l IH]; simpl; [reflexivity|].
  rewrite IH by (intros r' Hin; apply H; now right).
  destruct (String.eqb_spec (Metric.id r) uuid) as [E|_]; [|reflexivity].
  exfalso. apply (H r); simpl; auto.
Qed.

Lemma record_metric_fresh : forall now uuid name value labels type db,
  (forall r, In r (metrics db) -> Metric.id r <> uuid) ->
  record_metric now uuid name value labels type db =
  Ok (uuid,
      mkDB (metrics db ++
              [Metric.mk uuid name (sql_real value)
                         (match labels with None => [] | Some l => l end)
                         now type])
           (spans db) (logs db)).
Proof.
  intros now uuid name value labels type db H. unfold record_metric.
  now rewrite fresh_metric_id.
Qed.

(** C7 (as amended): [record_metric] does not look at the value.  Whether
    the call succeeds does not depend on the value, finite or not, and it
    succeeds whenever the generated id is not already a key of the table: it
    then appends one row with the given name, labels and type and the time of
    the call, and returns the generated id.  The row holds the value as the
    REAL column keeps it: NULL for a NaN, zero for a zero of either sign, and
    the value itself otherwise, the infinities included. *)
Theorem record_metric_accepts_any_value :
  forall now uuid name value labels type db,
  (forall value',
     raises (record_metric now uuid name value labels type db) =
     raises (record_metric now uuid name value' labels type db)) /\
  ((forall r, In r (metrics db) -> Metric.id r <> uuid) ->
   record_metric now uuid name value labels type db =
   Ok (uuid,
       mkDB (metrics db ++
               [Metric.mk uuid name
                          (if PrimFloat.is_nan value then None
                           else if PrimFloat.eqb value 0 then Some 0%float
                           else Some value)
                          (match labels with None => [] | Some l => l end)
                          now type])
            (spans db) (logs db))).
Proof.
  intros now uuid name value labels type db. split.
  - intros value'. unfold record_metric.
    now destruct (existsb _ (metrics db)).
  - intros H. unfold record_metric.
    now rewrite fresh_metric_id.
Qed.

(** The amended C7 at a NaN on the empty store: the row holds NULL. *)
Lemma record_metric_accepts_any_value_witness :
  record_metric 5 "m1" "cpu" nan None "gauge" empty_db =
  Ok ("m1", mkDB [Metric.mk "m1" "cpu" None [] 5 "gauge"] [] []).
Proof.
  apply (proj2 (record_metric_accepts_any_value 5 "m1" "cpu" nan None "gauge"
                  empty_db)).
  intros r [].
Defined.

(** What the column keeps of some values: the infinities and the ordinary
    numbers as they are, minus zero as zero, a NaN as NULL. *)
Example sql_real_examples :
  sql_real infinity = Some infinity /\
  sql_real neg_infinity = Some neg_infinity /\
  sql_real 600 = Some 600%float /\
  sql_real (-0)%float = Some 0%float /\
  sql_real nan = None.
Proof. repeat split; reflexivity. Qed.

(** C7 fails as stated: an infinite value is written to the table and the id
    is returned, and neither NaN nor minus infinity raises. *)
Lemma record_metric_accepts_non_finite :
  PrimFloat.is_finite infinity = false /\
  record_metric 5 "m1" "cpu" infinity None "gauge" empty_db =
    Ok ("m1", mkDB [Metric.mk "m1" "cpu" (Some infinity) [] 5 "gauge"] [] []) /\
  PrimFloat.is_finite nan = false /\
  raises (record_metric 5 "m1" "cpu" nan None "gauge" empty_db) = false /\
  PrimFloat.is_finite neg_infinity = false /\
  raises (record_metric 5 "m1" "cpu" neg_infinity None "gauge" empty_db) = false.
Proof. repeat split; reflexivity. Qed.

Lemma get_metrics_app : forall now name labels w db rows,
  get_metrics now name labels w
    (mkDB (metrics db ++ rows) (spans db) (logs db)) =
  (get_metrics now name labels w db ++
   get_metrics now name labels w (mkDB rows [] []))%list.
Proof.
  intros. unfold get_metrics. simpl. apply filter_app.
Qed.

Lemma get_metrics_cons : forall now name labels w r rows,
  get_metrics now name labels w (mkDB (r :: rows) [] []) =
  (get_metrics now name labels w (mkDB [r] [] []) ++
   get_metrics now name labels w (mkDB rows [] []))%list.
Proof.
  intros. unfold get_metrics. simpl.
  now destruct ((now - minutes w <? Metric.timestamp r) && name_matches name r).
Qed.

Lemma get_metrics_own_name : forall now name w r,
  now - Metric.timestamp r < minutes w -> Metric.name r = name ->
  get_metrics now (Some name) None w (mkDB [r] [] []) = [r].
Proof.
  intros now name w r Hw Hn. unfold get_metrics. simpl.
  replace (now - minutes w <? Metric.timestamp r) with true
    by (symmetry; apply Z.ltb_lt; lia).
  rewrite name_matches_literal; [reflexivity|].
  apply str_in_app. exists EmptyString, EmptyString.
  rewrite Hn. simpl. symmetry. clear. induction name as [|c n IH]; simpl.
  - reflexivity.
  - now rewrite IH.
Qed.

(** C8: [increment(name, labels)] is [record_metric(name, 1.0, labels,
    "counter")].  Two increments of one name, each with a fresh id, add two
    rows that differ in their ids, each with value [1.0] and type
    ["counter"]; a [get_metrics] for that name within the hour returns what it
    returned before followed by these two rows, nothing summed. *)
Theorem increment_is_record_metric :
  forall name labels now1 now2 now uuid1 uuid2 db,
  (forall r, In r (metrics db) -> Metric.id r <> uuid1) ->
  (forall r, In r (metrics db) -> Metric.id r <> uuid2) ->
  uuid1 <> uuid2 ->
  now - now1 < minutes 60 -> now - now2 < minutes 60 ->
  let labels' := match labels with None => [] | Some l => l end in
  let row1 := Metric.mk uuid1 name (Some 1%float) labels' now1 "counter" in
  let row2 := Metric.mk uuid2 name (Some 1%float) labels' now2 "counter" in
  increment now1 uuid1 name labels db =
    record_metric now1 uuid1 name 1%float labels "counter" db /\
  row1 <> row2 /\
  exists db1 db2,
    increment now1 uuid1 name labels db = Ok (uuid1, db1) /\
    increment now2 uuid2 name labels db1 = Ok (uuid2, db2) /\
    metrics db2 = (metrics db ++ [row1; row2])%list /\
    get_metrics now (Some name) None 60 db2 =
      (get_metrics now (Some name) None 60 db ++ [row1; row2])%list.
Proof.
  intros name labels now1 now2 now uuid1 uuid2 db H1 H2 Hneq Hw1 Hw2
         labels' row1 row2.
  subst row1 row2 labels'. split; [|split].
  { unfold increment. destruct labels; reflexivity. }
  { intros E. injection E as E _. contradiction. }
  unfold increment.
  rewrite (record_metric_fresh now1 uuid1 _ _ _ _ db H1).
  change (sql_real 1) with (Some 1%float).
  eexists. eexists. split; [reflexivity|].
  rewrite record_metric_fresh. change (sql_real 1) with (Some 1%float).
  - split; [reflexivity|]. simpl. rewrite <- app_assoc. simpl.
    split; [reflexivity|].
    rewrite (get_metrics_app now (Some name) None 60 db).
    rewrite get_metrics_cons, !get_metrics_own_name by (trivial; reflexivity).
    reflexivity.
  - simpl. intros r Hin. apply in_app_or in Hin.
    destruct Hin as [Hin|[<-|[]]]; [now apply H2 | exact Hneq].
Qed.

(** C8 on the empty store: two increments of ["x.hits"] at 1000 and 2000,
    queried at 3000. *)
Lemma increment_is_record_metric_witness :
  exists db1 db2,
    increment 1000 "u1" "x.hits" None empty_db = Ok ("u1", db1) /\
    increment 2000 "u2" "x.hits" None db1 = Ok ("u2", db2) /\
    get_metrics 3000 (Some "x.hits") None 60 db2 =
      [ Metric.mk "u1" "x.hits" (Some 1%float) [] 1000 "counter";
        Metric.mk "u2" "x.hits" (Some 1%float) [] 2000 "counter" ].
Proof.
  assert (Hneq : "u1" <> "u2") by discriminate.
  assert (Hw1 : 3000 - 1000 < minutes 60) by (vm_compute; reflexivity).
  assert (Hw2 : 3000 - 2000 < minutes 60) by (vm_compute; reflexivity).
  destruct (increment_is_record_metric "x.hits" None 1000 2000 3000 "u1" "u2"
              empty_db (fun r (H : In r []) => match H with end)
              (fun r (H : In r []) => match H with end) Hneq Hw1 Hw2)
    as [_ [_ [db1 [db2 [E1 [E2 [_ E]]]]]]].
  exists db1, db2. auto.
Defined.

(** * Further properties *)

(** ** Log queries *)

Lemma sort_by_ext : forall (A : Type) (le le' : A -> A -> bool) l,
  (forall x y, le x y = le' x y) -> sort_by le l = sort_by le' l.
Proof.
  intros A le le' l H. induction l as [|x l IH]; simpl; [reflexivity|].
  rewrite IH. generalize (sort_by le' l) as t. intros t.
  induction t as [|y t IHt]; simpl; [reflexivity|].
  now rewrite H, IHt.
Qed.

Lemma order_by_desc_sorted : forall (A : Type) (key : A -> Z) l,
  StronglySorted (fun a b => key b <= key a) (order_by_desc key l).
Proof.
  intros A key l. unfold order_by_desc.
  rewrite (sort_by_ext A _ (fun x y => - key x <=? - key y)).
  - pose proof (order_by_asc_sorted (fun x => - key x) l) as H.
    unfold order_by_asc in H.
    induction H as [|a t Ht IH Ha]; constructor; [exact IH|].
    eapply Forall_impl; [|exact Ha]. simpl. intros b Hb. lia.
  - intros x y. apply eq_true_iff_eq. rewrite !Z.leb_le. lia.
Qed.

Lemma firstn_sorted : forall (A : Type) (R : A -> A -> Prop) n l,
  StronglySorted R l -> StronglySorted R (firstn n l).
Proof.
  intros A R n l H. revert n. induction H as [|a l Hl IH Ha]; intros n.
  - rewrite firstn_nil. constructor.
  - destruct n as [|n]; simpl; constructor; [apply IH|].
    rewrite Forall_forall in *. intros x Hx. apply Ha.
    rewrite <- (firstn_skipn n l). apply in_or_app. now left.
Qed.

Lemma sorted_app_order : forall (A : Type) (R : A -> A -> Prop) l1 l2,
  StronglySorted R (l1 ++ l2) ->
  forall a b, In a l1 -> In b l2 -> R a b.
Proof.
  intros A R l1 l2. induction l1 as [|x l1 IH]; simpl; intros H a b Ha Hb.
  - destruct Ha.
  - inversion H as [|? ? Hs Hx]; subst. destruct Ha as [<-|Ha].
    + rewrite Forall_forall in Hx. apply Hx, in_or_app. now right.
    + now apply IH.
Qed.

Lemma sql_limit_firstn : forall (A : Type) limit (l : list A),
  sql_limit limit l =
  firstn (if limit <? 0 then List.length l else Z.to_nat limit) l.
Proof.
  intros A limit l. unfold sql_limit.
  destruct (limit <? 0); [now rewrite firstn_all | reflexivity].
Qed.

(** The test one optional, possibly empty, argument puts on a column. *)
Lemma clause_true : forall (arg : option string) (col : string),
  match arg with
  | Some s => if truthy arg then String.eqb col s else true
  | None => true
  end = true <->
  (forall s, arg = Some s -> s <> EmptyString -> col = s).
Proof.
  intros [s|] col.
  - destruct s as [|c s]; simpl.
    + split; [intros _ s' E Hs; injection E as <-; congruence | reflexivity].
    + rewrite String.eqb_eq. split.
      * intros -> s' E _. now injection E.
      * intros H. apply H; [reflexivity | discriminate].
  - split; [intros _ s E; discriminate | reflexivity].
Qed.

Lemma log_filter_In : forall now service level w db r,
  In r (filter
          (fun r =>
             (now - minutes w <? LogEntry.timestamp r) &&
             match service with
             | Some s =>
                 if truthy service then String.eqb (LogEntry.service r) s
                 else true
             | None => true
             end &&
             match level with
             | Some l =>
                 if truthy level then String.eqb (LogEntry.level r) l
                 else true
             | None => true
             end)
          (logs db)) <->
  In r (logs db) /\ log_selected now service level w r.
Proof.
  intros now service level w db r. unfold log_selected.
  rewrite filter_In, !andb_true_iff, Z.ltb_lt, !clause_true.
  intuition lia.
Qed.

Lemma get_logs_firstn : forall now service level w limit db,
  exists n sorted,
    get_logs now service level w limit db = firstn n sorted /\
    (limit < 0 -> n = List.length sorted) /\
    (0 <= limit -> n = Z.to_nat limit) /\
    StronglySorted
      (fun a b => LogEntry.timestamp b <= LogEntry.timestamp a) sorted /\
    (forall r, In r sorted <->
               In r (logs db) /\ log_selected now service level w r).
Proof.
  intros now service level w limit db. unfold get_logs.
  rewrite sql_limit_firstn. eexists. eexists.
  split; [reflexivity|]. split; [|split; [|split]].
  - intros H. apply Z.ltb_lt in H. now rewrite H.
  - intros H. apply Z.ltb_ge in H. now rewrite H.
  - apply order_by_desc_sorted.
  - intros r. rewrite <- log_filter_In. split; apply Permutation_in.
    + apply sort_by_perm.
    + apply Permutation_sym, sort_by_perm.
Qed.

Lemma firstn_incl : forall (A : Type) n (l : list A) x,
  In x (firstn n l) -> In x l.
Proof.
  intros A n l x H. rewrite <- (firstn_skipn n l). apply in_or_app. now left.
Qed.

(** X1: every row [get_logs] returns is a stored row younger than the
    cutoff, of the service and of the level asked for when these are given
    and not empty; the rows come newest first; a non-negative [limit] bounds
    their number; and with a negative [limit] every such stored row is
    returned. *)
Theorem get_logs_rows : forall now service level w limit db,
  (forall r, In r (get_logs now service level w limit db) ->
             In r (logs db) /\ log_selected now service level w r) /\
  StronglySorted (fun a b => LogEntry.timestamp b <= LogEntry.timestamp a)
                 (get_logs now service level w limit db) /\
  (0 <= limit ->
   Z.of_nat (List.length (get_logs now service level w limit db)) <= limit) /\
  (limit < 0 ->
   forall r, In r (logs db) -> log_selected now service level w r ->
             In r (get_logs now service level w limit db)).
Proof.
  intros now service level w limit db.
  destruct (get_logs_firstn now service level w limit db)
    as [n [sorted [-> [Hneg [Hpos [Hsorted Hin]]]]]].
  split; [|split; [|split]].
  - intros r Hr. apply Hin. now apply firstn_incl with n.
  - now apply firstn_sorted.
  - intros H. rewrite (Hpos H). pose proof (firstn_le_length (Z.to_nat limit) sorted).
    lia.
  - intros H r Hr Hsel. rewrite (Hneg H), firstn_all. apply Hin. now split.
Qed.

(** X1 at [three_logs_db]: the unlimited query for errors sees the row
    stored last. *)
Lemma get_logs_rows_witness :
  In (LogEntry.mk "l3" "gateway" "error" "reset" 300 None [])
     (get_logs 400 (Some "gateway") (Some "error") 60 (-1) three_logs_db).
Proof.
  apply (proj2 (proj2 (proj2
           (get_logs_rows 400 (Some "gateway") (Some "error") 60 (-1)
                          three_logs_db)))).
  - lia.
  - simpl. auto.
  - unfold log_selected. simpl. repeat split; congruence.
Defined.

(** X2: when [get_logs] drops a row that its filters select, it is for the
    limit, and the dropped row is no newer than any row returned. *)
Theorem get_logs_keeps_newest : forall now service level w limit db r m,
  In r (get_logs now service level w limit db) ->
  In m (logs db) -> log_selected now service level w m ->
  ~ In m (get_logs now service level w limit db) ->
  0 <= limit /\ LogEntry.timestamp m <= LogEntry.timestamp r.
Proof.
  intros now service level w limit db r m.
  destruct (get_logs_firstn now service level w limit db)
    as [n [sorted [-> [Hneg [_ [Hsorted Hin]]]]]].
  intros Hr Hm Hsel Hout.
  assert (Hms : In m sorted) by (apply Hin; now split).
  split.
  - destruct (Z.lt_ge_cases limit 0) as [H|H]; [|exact H].
    exfalso. apply Hout. now rewrite (Hneg H), firstn_all.
  - rewrite <- (firstn_skipn n sorted) in Hms, Hsorted.
    apply in_app_or in Hms. destruct Hms as [Hms|Hms]; [contradiction|].
    exact (sorted_app_order _ _ _ _ Hsorted r m Hr Hms).
Qed.

(** X2 at [three_logs_db] with [limit = 1]: the row of time 100 is dropped
    and the row of time 300 is kept. *)
Lemma get_logs_keeps_newest_witness :
  0 <= 1 /\ 100 <= 300.
Proof.
  apply (get_logs_keeps_newest 400 (Some "gateway") (Some "error") 60 1
           three_logs_db
           (LogEntry.mk "l3" "gateway" "error" "reset" 300 None [])
           (LogEntry.mk "l1" "gateway" "error" "timeout" 100 None [])).
  - simpl. auto.
  - simpl. auto.
  - unfold log_selected. simpl. repeat split; congruence.
  - simpl. intros [H|[]]. discriminate H.
Defined.

(** ** What the write path keeps *)

Lemma fresh_iff : forall (A : Type) (id : A -> string) uuid l,
  existsb (fun r => String.eqb (id r) uuid) l = true <-> In uuid (map id l).
Proof.
  intros A id uuid l. rewrite existsb_exists, in_map_iff.
  split; intros [r [H1 H2]]; exists r.
  - now rewrite String.eqb_eq in H2.
  - now rewrite String.eqb_eq.
Qed.

Lemma fresh_not_in : forall (A : Type) (id : A -> string) uuid l,
  existsb (fun r => String.eqb (id r) uuid) l = false ->
  ~ In uuid (map id l).
Proof.
  intros A id uuid l H Hin. apply fresh_iff in Hin. congruence.
Qed.

Lemma NoDup_snoc : forall (A : Type) (l : list A) x,
  NoDup l -> ~ In x l -> NoDup (l ++ [x]).
Proof.
  intros A l x Hl Hx. induction Hl as [|y l Hy Hl IH]; simpl.
  - constructor; [intros [] | constructor].
  - constructor.
    + intros H. apply in_app_or in H. destruct H as [H|[H|[]]].
      * contradiction.
      * apply Hx. now left.
    + apply IH. intros H. apply Hx. now right.
Qed.

Lemma update_span_identity : forall now span_id status tags r,
  span_identity (update_span now span_id status tags r) = span_identity r.
Proof.
  intros. unfold update_span.
  now destruct (String.eqb (Span.span_id r) span_id).
Qed.

Lemma map_update_span_ids : forall now span_id status tags l,
  map Span.span_id (map (update_span now span_id status tags) l) =
  map Span.span_id l.
Proof.
  intros. rewrite map_map. apply map_ext. intros r. apply update_span_id.
Qed.

(** X3: in every store written by the write path alone, the ids of the
    metrics, the span ids and the ids of the logs are each without
    repetition: a generated id that collides is refused, never stored twice. *)
Theorem history_primary_keys : forall t db,
  history t db ->
  NoDup (map Metric.id (metrics db)) /\
  NoDup (map Span.span_id (spans db)) /\
  NoDup (map LogEntry.id (logs db)).
Proof.
  intros t db H. induction H as [t|t t' c db H [IHm [IHs IHl]] Ht].
  - simpl. repeat split; constructor.
  - destruct c; simpl.
    + unfold record_metric.
      destruct (existsb _ (metrics db)) eqn:E; simpl; auto.
      split; [|auto]. rewrite map_app. simpl.
      apply NoDup_snoc; [exact IHm | now apply fresh_not_in].
    + unfold increment, record_metric.
      destruct (existsb _ (metrics db)) eqn:E; simpl; auto.
      split; [|auto]. rewrite map_app. simpl.
      apply NoDup_snoc; [exact IHm | now apply fresh_not_in].
    + unfold start_span.
      destruct (existsb _ (spans db)) eqn:E; simpl; auto.
      split; [auto | split; [|auto]]. rewrite map_app. simpl.
      apply NoDup_snoc; [exact IHs | now apply fresh_not_in].
    + split; [auto | split; [|auto]]. now rewrite map_update_span_ids.
    + unfold log.
      destruct (existsb _ (logs db)) eqn:E; simpl; auto.
      split; [auto | split; [auto|]]. rewrite map_app. simpl.
      apply NoDup_snoc; [exact IHl | now apply fresh_not_in].
Qed.

(** X3 at [two_spans_db]. *)
Lemma history_primary_keys_witness :
  NoDup (map Span.span_id (spans two_spans_db)).
Proof.
  exact (proj1 (proj2 (history_primary_keys 30 two_spans_db two_spans_history))).
Defined.

Lemma run_tables : forall now c db,
  (target c <> TMetrics -> metrics (run now c db) = metrics db) /\
  (target c <> TSpans -> spans (run now c db) = spans db) /\
  (target c <> TLogs -> logs (run now c db) = logs db).
Proof.
  intros now c db.
  destruct c; simpl;
    unfold increment, record_metric, start_span, log;
    try destruct (existsb _ _); simpl; repeat split; congruence.
Qed.

Lemma get_metrics_table : forall now name labels w db db',
  metrics db = metrics db' ->
  get_metrics now name labels w db = get_metrics now name labels w db'.
Proof. intros. unfold get_metrics. now rewrite H. Qed.

Lemma get_logs_table : forall now service level w limit db db',
  logs db = logs db' ->
  get_logs now service level w limit db =
  get_logs now service level w limit db'.
Proof. intros. unfold get_logs. now rewrite H. Qed.

Lemma get_trace_table : forall now trace_id db db',
  spans db = spans db' ->
  get_trace now trace_id db = get_trace now trace_id db'.
Proof. intros. unfold get_trace. now rewrite H. Qed.

(** X5: a call changes nothing outside its own table.  Starting or ending a
    span changes no metric query, alert or dashboard; recording a metric or a
    log changes no trace; and only [log] changes a log query. *)
Theorem calls_leave_other_tables : forall now c db,
  (target c = TSpans ->
   forall now' service, 
     service_dashboard now' service (run now c db) =
     service_dashboard now' service db /\
     alert_rules now' (run now c db) = alert_rules now' db) /\
  (target c <> TMetrics ->
   forall now' name labels w,
     get_metrics now' name labels w (run now c db) =
     get_metrics now' name labels w db) /\
  (target c <> TSpans ->
   forall now' trace_id,
     get_trace now' trace_id (run now c db) = get_trace now' trace_id db) /\
  (target c <> TLogs ->
   forall now' service level w limit,
     get_logs now' service level w limit (run now c db) =
     get_logs now' service level w limit db).
Proof.
  intros now c db. destruct (run_tables now c db) as [Hm [Hs Hl]].
  split; [|split; [|split]].
  - intros E now' service.
    assert (Em : metrics (run now c db) = metrics db)
      by (apply Hm; congruence).
    assert (El : logs (run now c db) = logs db) by (apply Hl; congruence).
    unfold service_dashboard, alert_rules.
    rewrite (get_metrics_table now' (Some service) None 60 _ db Em).
    rewrite (get_metrics_table now' None None 5 _ db Em).
    now rewrite (get_logs_table now' (Some service) (Some "error") 60 10 _ db El).
  - intros E now' name labels w. now apply get_metrics_table, Hm.
  - intros E now' trace_id. now apply get_trace_table, Hs.
  - intros E now' service level w limit. now apply get_logs_table, Hl.
Qed.

(** X5 at [two_spans_db]: ending the span ["b"] leaves the alerts as they
    were. *)
Lemma calls_leave_other_tables_witness :
  alert_rules 40
    (run 40 (EndSpan "b" "ok" None) two_spans_db) =
  alert_rules 40 two_spans_db.
Proof.
  exact (proj2 (proj1 (calls_leave_other_tables 40 (EndSpan "b" "ok" None)
                         two_spans_db) eq_refl 40 "gateway")).
Defined.

Lemma run_appends : forall now c db,
  (exists rows, metrics (run now c db) = (metrics db ++ rows)%list) /\
  (exists rows, logs (run now c db) = (logs db ++ rows)%list) /\
  (exists ids, map span_identity (spans (run now c db)) =
               (map span_identity (spans db) ++ ids)%list).
Proof.
  intros now c db.
  destruct c; simpl;
    unfold increment, record_metric, start_span, log;
    try destruct (existsb _ _); simpl;
    repeat split;
    try (exists []; now rewrite app_nil_r);
    try (eexists; reflexivity).
  - rewrite map_app. eexists. reflexivity.
  - exists []. rewrite app_nil_r, map_map. apply map_ext.
    intros r. apply update_span_identity.
Qed.

(** X6: no sequence of calls removes, reorders or rewrites what is stored.
    After any calls the old metrics and the old logs are still there, as the
    first rows of their tables and unchanged, and each old span keeps its
    place and its trace id, span id, parent, service, operation and start. *)
Theorem store_is_append_only : forall calls db,
  (exists rows, metrics (run_all calls db) = (metrics db ++ rows)%list) /\
  (exists rows, logs (run_all calls db) = (logs db ++ rows)%list) /\
  (exists ids, map span_identity (spans (run_all calls db)) =
               (map span_identity (spans db) ++ ids)%list).
Proof.
  intros calls. unfold run_all.
  induction calls as [|[t c] calls IH]; intros db; simpl.
  - repeat split; exists []; now rewrite app_nil_r.
  - destruct (IH (run t c db)) as [[m Hm] [[l Hl] [s Hs]]].
    destruct (run_appends t c db) as [[m0 Hm0] [[l0 Hl0] [s0 Hs0]]].
    rewrite Hm, Hl, Hs, Hm0, Hl0, Hs0, <- !app_assoc.
    repeat split; eexists; reflexivity.
Qed.

(** ** Spans from start to end *)

Lemma filter_none : forall (A : Type) (f : A -> bool) l,
  (forall x, In x l -> f x = false) -> filter f l = [].
Proof.
  intros A f l H. induction l as [|x l IH]; simpl; [reflexivity|].
  rewrite (H x) by (now left). apply IH. intros y Hy. apply H. now right.
Qed.

Lemma other_trace : forall trace_id l,
  (forall r, In r l -> Span.trace_id r <> trace_id) ->
  filter (fun r => String.eqb (Span.trace_id r) trace_id) l = [].
Proof.
  intros trace_id l H. apply filter_none. intros r Hr.
  apply String.eqb_neq. now apply H.
Qed.

(** X7: a span started under a trace id that no stored span carries is, at
    once, the whole of that trace: one span without end, status ["ok"], no
    tags, its duration running from its start to the time of the query.
    After [end_span] the trace is that one span with the end, status and tags
    of the call and a duration of [end - start], whatever the time of the
    query. *)
Theorem span_round_trip :
  forall t0 t1 now uuid_trace uuid_span service operation trace_id parent
         status tags db,
  (forall r, In r (spans db) -> Span.span_id r <> uuid_span) ->
  (forall r, In r (spans db) ->
     Span.trace_id r <>
     match trace_id with None => uuid_trace | Some t => t end) ->
  exists db1 db2,
    start_span t0 uuid_trace uuid_span service operation trace_id parent db =
      Ok (uuid_span, db1) /\
    get_trace now (match trace_id with None => uuid_trace | Some t => t end)
              db1 =
      Trace.mk (match trace_id with None => uuid_trace | Some t => t end)
        [Span.mk (match trace_id with None => uuid_trace | Some t => t end)
                 uuid_span parent service operation t0 None "ok" []]
        [Waterfall.mk service operation (total_seconds (now - t0) * 1000)%Q
                      "ok"] /\
    end_span t1 uuid_span status tags db1 = Ok db2 /\
    get_trace now (match trace_id with None => uuid_trace | Some t => t end)
              db2 =
      Trace.mk (match trace_id with None => uuid_trace | Some t => t end)
        [Span.mk (match trace_id with None => uuid_trace | Some t => t end)
                 uuid_span parent service operation t0 (Some t1) status
                 (match tags with None => [] | Some t => t end)]
        [Waterfall.mk service operation (total_seconds (t1 - t0) * 1000)%Q
                      status].
Proof.
  intros t0 t1 now uuid_trace uuid_span service operation trace_id parent
         status tags db Hid Htrace.
  set (tid := match trace_id with None => uuid_trace | Some t => t end) in *.
  eexists. eexists. split; [|split; [|split]].
  - unfold start_span. fold tid.
    replace (existsb _ (spans db)) with false; [reflexivity|].
    symmetry. apply not_true_is_false. intros H. apply fresh_iff in H.
    apply in_map_iff in H. destruct H as [r [E Hr]]. now apply (Hid r).
  - unfold get_trace. simpl. rewrite filter_app, (other_trace tid _ Htrace).
    simpl. rewrite String.eqb_refl. reflexivity.
  - reflexivity.
  - unfold get_trace. simpl. rewrite map_app, filter_app.
    rewrite update_span_other by exact Hid.
    rewrite (other_trace tid _ Htrace). simpl.
    unfold update_span. simpl. rewrite !String.eqb_refl. reflexivity.
Qed.

(** X7 on the empty store: a new trace ["t"], started at 10 and ended at 25. *)
Lemma span_round_trip_witness :
  exists db1 db2,
    start_span 10 "t" "a" "gateway" "GET /" None None empty_db =
      Ok ("a", db1) /\
    end_span 25 "a" "error" None db1 = Ok db2 /\
    Trace.waterfall (get_trace 99 "t" db2) =
      [Waterfall.mk "gateway" "GET /" (total_seconds 15 * 1000)%Q "error"].
Proof.
  destruct (span_round_trip 10 25 99 "t" "a" "gateway" "GET /" None None
              "error" None empty_db
              (fun r (H : In r []) => match H with end)
              (fun r (H : In r []) => match H with end))
    as [db1 [db2 [H1 [_ [H2 H3]]]]].
  exists db1, db2. split; [exact H1 | split; [exact H2|]].
  now rewrite H3.
Defined.

Lemma insert_by_map : forall (A : Type) (le : A -> A -> bool) (f : A -> A) x l,
  (forall a b, le (f a) (f b) = le a b) ->
  insert_by le (f x) (map f l) = map f (insert_by le x l).
Proof.
  intros A le f x l H. induction l as [|y l IH]; simpl; [reflexivity|].
  rewrite H. destruct (le x y); simpl; [reflexivity | now rewrite IH].
Qed.

Lemma sort_by_map : forall (A : Type) (le : A -> A -> bool) (f : A -> A) l,
  (forall a b, le (f a) (f b) = le a b) ->
  sort_by le (map f l) = map f (sort_by le l).
Proof.
  intros A le f l H. induction l as [|x l IH]; simpl; [reflexivity|].
  now rewrite IH, insert_by_map.
Qed.

Lemma filter_map_same : forall (A : Type) (p : A -> bool) (f : A -> A) l,
  (forall a, p (f a) = p a) -> filter p (map f l) = map f (filter p l).
Proof.
  intros A p f l H. induction l as [|x l IH]; simpl; [reflexivity|].
  rewrite H. destruct (p x); simpl; now rewrite IH.
Qed.

Lemma update_span_columns : forall now span_id status tags r,
  Span.trace_id (update_span now span_id status tags r) = Span.trace_id r /\
  Span.start_ts (update_span now span_id status tags r) = Span.start_ts r.
Proof.
  intros. unfold update_span.
  now destruct (String.eqb (Span.span_id r) span_id).
Qed.

(** X8: [end_span] changes a trace in place.  The spans [get_trace] returns
    afterwards are the spans it returned before, in the same order, the one
    with the given id carrying the new end, status and tags; so no span
    enters, leaves or moves, and every waterfall entry keeps its service and
    operation. *)
Theorem end_span_updates_trace_in_place :
  forall t span_id status tags now trace_id db,
  Trace.spans (get_trace now trace_id (run t (EndSpan span_id status tags) db)) =
    map (update_span t span_id status
                     (match tags with None => [] | Some l => l end))
        (Trace.spans (get_trace now trace_id db)) /\
  map span_identity
      (Trace.spans
         (get_trace now trace_id (run t (EndSpan span_id status tags) db))) =
    map span_identity (Trace.spans (get_trace now trace_id db)) /\
  map (fun w => (Waterfall.service w, Waterfall.operation w))
      (Trace.waterfall
         (get_trace now trace_id (run t (EndSpan span_id status tags) db))) =
    map (fun w => (Waterfall.service w, Waterfall.operation w))
        (Trace.waterfall (get_trace now trace_id db)).
Proof.
  intros t span_id status tags now trace_id db.
  assert (E : Trace.spans
                (get_trace now trace_id
                           (run t (EndSpan span_id status tags) db)) =
              map (update_span t span_id status
                     (match tags with None => [] | Some l => l end))
                  (Trace.spans (get_trace now trace_id db))).
  { rewrite !get_trace_spans. simpl. unfold order_by_asc.
    rewrite filter_map_same, sort_by_map; [reflexivity| |].
    - intros a b.
      now rewrite !(proj2 (update_span_columns t span_id status _ _)).
    - intros a.
      now rewrite (proj1 (update_span_columns t span_id status _ _)). }
  split; [exact E | split].
  - rewrite E, map_map. apply map_ext. intros r. apply update_span_identity.
  - rewrite !get_trace_waterfall, E, !map_map. apply map_ext. intros r.
    unfold update_span. now destruct (String.eqb (Span.span_id r) span_id).
Qed.

(** ** Metric queries, alerts and dashboards after a write *)

(** X9: the [labels] argument of [get_metrics] selects nothing; the [name]
    argument only narrows the unnamed query, keeping the order of the table;
    and a metric returned for one window is returned for every longer one. *)
Theorem get_metrics_narrowing : forall now name labels labels' w w' db,
  get_metrics now name labels w db = get_metrics now name labels' w db /\
  get_metrics now name labels w db =
    filter (name_matches name) (get_metrics now None None w db) /\
  (w <= w' ->
   forall M, In M (get_metrics now name labels w db) ->
             In M (get_metrics now name labels' w' db)).
Proof.
  intros now name labels labels' w w' db. split; [reflexivity | split].
  - unfold get_metrics. induction (metrics db) as [|m l IH]; simpl.
    + reflexivity.
    + destruct (now - minutes w <? Metric.timestamp m); simpl.
      * destruct (name_matches name m); simpl; now rewrite IH.
      * exact IH.
  - intros Hw M. rewrite !get_metrics_In. unfold minutes. intuition lia.
Qed.

(** X9 at [hits_db]: the row seen in a window of 60 minutes is seen in one
    of 120, whatever the labels asked for. *)
Lemma get_metrics_narrowing_witness :
  In hits_row
     (get_metrics 2000 (Some "hits") (Some [("env", "prod")]) 120 hits_db).
Proof.
  assert (Hw : 60 <= 120) by lia.
  apply (proj2 (proj2 (get_metrics_narrowing 2000 (Some "hits") None
                         (Some [("env", "prod")]) 60 120 hits_db)) Hw).
  simpl. now left.
Defined.

Lemma alert_loop_raises_TypeError : forall l acc e,
  alert_loop l acc = Raise e -> e = TypeError.
Proof.
  intros l acc e H.
  destruct (alert_loop_cases l acc) as [[_ E]|[_ E]]; congruence.
Qed.

(** X10: a recorded metric is judged by [alert_rules] for the next 5 minutes
    and no longer.  After a successful [record_metric] at [t], a call at
    [now] with [now - t] of 5 minutes or more returns what it returned
    before.  Within the 5 minutes, a value that is not NaN adds its
    violations, judged on the value as stored, after the violations of the
    store before, and a call that raised before raises still; a NaN, stored
    as NULL, makes [alert_rules] raise [TypeError] when the name contains
    ["error_rate"] or ["p99_latency"], and changes nothing otherwise. *)
Theorem recorded_metric_alerts :
  forall t now uuid name value labels type db,
  (forall r, In r (metrics db) -> Metric.id r <> uuid) ->
  exists db',
    record_metric t uuid name value labels type db = Ok (uuid, db') /\
    (minutes 5 <= now - t -> alert_rules now db' = alert_rules now db) /\
    (now - t < minutes 5 -> PrimFloat.is_nan value = false ->
     alert_rules now db' =
       match alert_rules now db with
       | Ok violations =>
           let v := if PrimFloat.eqb value 0 then 0%float else value in
           Ok (violations ++
               (if str_in "error_rate" name
                   && PrimFloat.ltb 0x1.999999999999ap-5 v
                then [Violation.mk name (Some v) (Float 0x1.999999999999ap-5)
                                   "high"]
                else []) ++
               (if str_in "p99_latency" name && PrimFloat.ltb 500 v
                then [Violation.mk name (Some v) (Int 500) "medium"]
                else []))%list
       | Raise e => Raise e
       end) /\
    (now - t < minutes 5 -> PrimFloat.is_nan value = true ->
     alert_rules now db' =
       if str_in "error_rate" name || str_in "p99_latency" name
       then Raise TypeError
       else alert_rules now db).
Proof.
  intros t now uuid name value labels type db Hfresh.
  eexists. split; [now apply record_metric_fresh|].
  assert (A : forall row,
            alert_rules now (mkDB (metrics db ++ [row]) (spans db) (logs db)) =
            match alert_rules now db with
            | Ok violations =>
                if now - minutes 5 <? Metric.timestamp row
                then check_metric violations row
                else Ok violations
            | Raise e => Raise e
            end).
  { intros row. unfold alert_rules. cbn zeta.
    rewrite get_metrics_app, alert_loop_app.
    destruct (alert_loop (get_metrics now None None 5 db) []);
      [|reflexivity].
    unfold get_metrics, name_matches.
    cbn [metrics filter truthy andb].
    rewrite andb_true_r.
    destruct (now - minutes 5 <? Metric.timestamp row); cbn [alert_loop];
      [|reflexivity].
    now destruct (check_metric a row). }
  rewrite A. cbn [Metric.timestamp]. split; [|split].
  - intros Hw. replace (now - minutes 5 <? t) with false
      by (symmetry; apply Z.ltb_ge; lia).
    now destruct (alert_rules now db).
  - intros Hw Hnan. replace (now - minutes 5 <? t) with true
      by (symmetry; apply Z.ltb_lt; lia).
    destruct (alert_rules now db) as [violations|e]; [|reflexivity].
    rewrite check_metric_judged.
    + unfold violations_of, sql_real, exceeds.
      cbn [Metric.name Metric.value]. rewrite Hnan.
      now destruct (PrimFloat.eqb value 0).
    + unfold unjudged, sql_real. cbn [Metric.value]. rewrite Hnan.
      destruct (PrimFloat.eqb value 0); apply andb_false_r.
  - intros Hw Hnan. replace (now - minutes 5 <? t) with true
      by (symmetry; apply Z.ltb_lt; lia).
    destruct (str_in "error_rate" name || str_in "p99_latency" name) eqn:N.
    + destruct (alert_rules now db) as [violations|e] eqn:Old.
      * apply check_metric_unjudged. unfold unjudged, sql_real.
        cbn [Metric.name Metric.value]. now rewrite Hnan, N.
      * apply alert_loop_raises_TypeError in Old. now rewrite Old.
    + destruct (alert_rules now db) as [violations|e]; [|reflexivity].
      rewrite check_metric_judged.
      * unfold violations_of, sql_real, exceeds.
        cbn [Metric.name Metric.value]. rewrite Hnan.
        apply orb_false_iff in N. destruct N as [N1 N2].
        rewrite N1, N2. cbn. now rewrite app_nil_r.
      * unfold unjudged. cbn [Metric.name]. now rewrite N.
Qed.

(** X10 on the empty store: an infinite error rate is reported one minute
    after it was recorded, and a NaN makes the call raise. *)
Lemma recorded_metric_alerts_witness :
  (exists db',
     record_metric 0 "m1" "api.error_rate" infinity None "gauge" empty_db =
       Ok ("m1", db') /\
     alert_rules (minutes 1) db' =
       Ok [Violation.mk "api.error_rate" (Some infinity)
                        (Float 0x1.999999999999ap-5) "high"]) /\
  (exists db',
     record_metric 0 "m1" "api.error_rate" nan None "gauge" empty_db =
       Ok ("m1", db') /\
     alert_rules (minutes 1) db' = Raise TypeError).
Proof.
  assert (Hw : minutes 1 - 0 < minutes 5) by (vm_compute; reflexivity).
  split.
  - destruct (recorded_metric_alerts 0 (minutes 1) "m1" "api.error_rate"
                infinity None "gauge" empty_db
                (fun r (H : In r []) => match H with end))
      as [db' [H1 [_ [H2 _]]]].
    exists db'. split; [exact H1 | exact (H2 Hw eq_refl)].
  - destruct (recorded_metric_alerts 0 (minutes 1) "m1" "api.error_rate"
                nan None "gauge" empty_db
                (fun r (H : In r []) => match H with end))
      as [db' [H1 [_ [_ H2]]]].
    exists db'. split; [exact H1 | exact (H2 Hw eq_refl)].
Defined.

Lemma find_metric_app : forall l l' nm,
  _find_metric (l ++ l') nm =
  if existsb (fun m => String.eqb (Metric.name m) nm) l
  then _find_metric l nm
  else _find_metric l' nm.
Proof.
  intros l l' nm. induction l as [|m l IH]; simpl; [reflexivity|].
  now destruct (String.eqb (Metric.name m) nm).
Qed.

Lemma named_row : forall l nm,
  existsb (fun m => String.eqb (Metric.name m) nm) l = true <->
  exists m, In m l /\ Metric.name m = nm.
Proof.
  intros l nm. rewrite existsb_exists.
  split; intros [m [H1 H2]]; exists m; split; trivial;
    now apply String.eqb_eq.
Qed.

(** X11: within the hour the first reading of a dashboard metric stays.
    Recording a new value under the name of a dashboard field leaves the
    field as it is, null or not, when the last 60 minutes already hold a row
    of that name; when they hold none, the field becomes the value as the
    table keeps it: null for a NaN, zero for a zero, the value otherwise. *)
Theorem dashboard_keeps_first_reading :
  forall t now uuid service field suffix value labels type db,
  In (field, suffix) dashboard_fields ->
  (forall r, In r (metrics db) -> Metric.id r <> uuid) ->
  now - t < minutes 60 ->
  exists db',
    record_metric t uuid (service ++ suffix) value labels type db =
      Ok (uuid, db') /\
    ((exists m, In m (get_metrics now None None 60 db) /\
                Metric.name m = (service ++ suffix)%string) ->
     field (Dashboard.metrics (service_dashboard now service db')) =
     field (Dashboard.metrics (service_dashboard now service db))) /\
    ((forall m, In m (get_metrics now None None 60 db) ->
                Metric.name m <> (service ++ suffix)%string) ->
     field (Dashboard.metrics (service_dashboard now service db')) =
     if PrimFloat.is_nan value then None
     else if PrimFloat.eqb value 0 then Some 0%float
     else Some value).
Proof.
  intros t now uuid service field suffix value labels type db Hin Hfresh Hw.
  eexists. split; [now apply record_metric_fresh|].
  assert (E : forall d,
            field (Dashboard.metrics (service_dashboard now service d)) =
            _find_metric (get_metrics now None None 60 d) (service ++ suffix)).
  { intros d. unfold service_dashboard. simpl in Hin |- *.
    destruct Hin as [H|[H|[H|[H|[H|[]]]]]]; injection H as <- <-;
      apply find_metric_dashboard. }
  rewrite !E, get_metrics_app, find_metric_app. split.
  - intros H. apply named_row in H. now rewrite H.
  - intros H.
    replace (existsb _ (get_metrics now None None 60 db)) with false.
    + unfold get_metrics, name_matches.
      cbn [metrics filter Metric.timestamp truthy andb].
      replace (now - minutes 60 <? t) with true
        by (symmetry; apply Z.ltb_lt; lia).
      cbn [andb _find_metric Metric.name Metric.value].
      now rewrite String.eqb_refl.
    + symmetry. apply not_true_is_false. intros X. apply named_row in X.
      destruct X as [m [H1 H2]]. now apply (H m).
Qed.

(** X11 at [gateway_db]: a third error rate of 0.75 leaves the dashboard at
    0.25. *)
Lemma dashboard_keeps_first_reading_witness :
  exists db',
    record_metric 350 "m4" "gateway.error_rate" 0.75 None "gauge" gateway_db =
      Ok ("m4", db') /\
    Dashboard.error_rate
      (Dashboard.metrics (service_dashboard 400 "gateway" db')) =
    Some 0.25%float.
Proof.
  assert (Hw : 400 - 350 < minutes 60) by (vm_compute; reflexivity).
  assert (Hfresh : forall r, In r (metrics gateway_db) -> Metric.id r <> "m4").
  { intros r Hr. simpl in Hr.
    destruct Hr as [<-|[<-|[<-|[]]]]; discriminate. }
  destruct (dashboard_keeps_first_reading 350 400 "m4" "gateway"
              Dashboard.error_rate ".error_rate" 0.75 None "gauge" gateway_db
              (or_intror (or_introl eq_refl)) Hfresh Hw)
    as [db' [H1 [H2 _]]].
  exists db'. split; [exact H1|].
  rewrite H2; [reflexivity|].
  exists (Metric.mk "m1" "gateway.error_rate" (Some 0.25%float) [] 100 "gauge").
  split; [simpl; auto | reflexivity].
Defined.

(** X12: [recent_errors] of a dashboard holds at most 10 rows, newest first,
    every one a stored log of level ["error"] younger than 60 minutes, and of
    the dashboard's service when its name is not empty; for the empty name
    it is drawn from the errors of all services. *)
Theorem dashboard_recent_errors : forall now service db,
  (List.length (Dashboard.recent_errors (service_dashboard now service db))
   <= 10)%nat /\
  StronglySorted (fun a b => LogEntry.timestamp b <= LogEntry.timestamp a)
    (Dashboard.recent_errors (service_dashboard now service db)) /\
  (forall r,
     In r (Dashboard.recent_errors (service_dashboard now service db)) ->
     In r (logs db) /\ LogEntry.level r = "error" /\
     now - LogEntry.timestamp r < minutes 60 /\
     (service <> EmptyString -> LogEntry.service r = service)) /\
  Dashboard.recent_errors (service_dashboard now EmptyString db) =
    get_logs now None (Some "error") 60 10 db.
Proof.
  intros now service db. unfold service_dashboard.
  cbn [Dashboard.recent_errors].
  destruct (get_logs_firstn now (Some service) (Some "error") 60 10 db)
    as [n [sorted [-> [_ [Hpos [Hsorted Hin]]]]]].
  split; [|split; [|split]].
  - rewrite Hpos by lia. apply firstn_le_length.
  - now apply firstn_sorted.
  - intros r Hr. apply firstn_incl in Hr. apply Hin in Hr.
    destruct Hr as [Hr [Hw [Hs Hl]]].
    split; [exact Hr | split; [|split; [exact Hw|]]].
    + apply Hl; [reflexivity | discriminate].
    + intros Hne. now apply Hs.
  - reflexivity.
Qed.

Lemma sort_by_newest : forall (A : Type) (key : A -> Z) l x,
  (forall y, In y l -> key y < key x) ->
  order_by_desc key (l ++ [x]) = x :: order_by_desc key l.
Proof.
  intros A key l x H. unfold order_by_desc, sort_by.
  induction l as [|y l IH]; simpl; [reflexivity|].
  rewrite IH by (intros z Hz; apply H; now right). simpl.
  replace (key x <=? key y) with false; [reflexivity|].
  symmetry. apply Z.leb_gt. apply H. now left.
Qed.

(** X13: a log just written is the first row of the next query for its
    service and level.  If every stored log is older than the new one, the
    id is fresh and the query, with a non-zero limit, is made before the
    window has passed, [get_logs] returns the new row at its head. *)
Theorem log_round_trip :
  forall t now uuid service level message trace_id fields w limit db,
  (forall r, In r (logs db) -> LogEntry.id r <> uuid) ->
  (forall r, In r (logs db) -> LogEntry.timestamp r < t) ->
  now - t < minutes w -> limit <> 0 ->
  exists db',
    log t uuid service level message trace_id fields db = Ok (uuid, db') /\
    hd_error (get_logs now (Some service) (Some level) w limit db') =
      Some (LogEntry.mk uuid service level message t trace_id fields).
Proof.
  intros t now uuid service level message trace_id fields w limit db
         Hfresh Hold Hw Hlimit.
  eexists. split.
  - unfold log. replace (existsb _ (logs db)) with false; [reflexivity|].
    symmetry. apply not_true_is_false. intros H. apply fresh_iff in H.
    apply in_map_iff in H. destruct H as [r [E Hr]]. now apply (Hfresh r).
  - unfold get_logs. cbn [logs]. rewrite filter_app.
    cbn [filter LogEntry.timestamp LogEntry.service LogEntry.level].
    replace (now - minutes w <? t) with true
      by (symmetry; apply Z.ltb_lt; lia).
    assert (Hs : (if truthy (Some service)
                  then String.eqb service service else true) = true)
      by (rewrite String.eqb_refl; now destruct (truthy (Some service))).
    assert (Hl : (if truthy (Some level)
                  then String.eqb level level else true) = true)
      by (rewrite String.eqb_refl; now destruct (truthy (Some level))).
    rewrite Hs, Hl. cbn [andb].
    rewrite sort_by_newest.
    + unfold sql_limit. destruct (limit <? 0) eqn:L; [reflexivity|].
      apply Z.ltb_ge in L.
      assert (Hn : Z.to_nat limit <> 0%nat) by lia.
      destruct (Z.to_nat limit); [contradiction | reflexivity].
    + intros y Hy. apply filter_In in Hy. cbn [LogEntry.timestamp].
      now apply Hold.
Qed.

(** X13 at [three_logs_db], whose newest row has time 300: an error logged at
    350 heads the query made at 400 with limit 1. *)
Lemma log_round_trip_witness :
  exists db',
    log 350 "l4" "gateway" "error" "again" None [] three_logs_db =
      Ok ("l4", db') /\
    hd_error (get_logs 400 (Some "gateway") (Some "error") 60 1 db') =
      Some (LogEntry.mk "l4" "gateway" "error" "again" 350 None []).
Proof.
  assert (Hw : 400 - 350 < minutes 60) by (vm_compute; reflexivity).
  assert (Hlimit : 1 <> 0) by discriminate.
  assert (Hfresh : forall r, In r (logs three_logs_db) ->
                             LogEntry.id r <> "l4").
  { intros r Hr. simpl in Hr.
    destruct Hr as [<-|[<-|[<-|[]]]]; discriminate. }
  assert (Hold : forall r, In r (logs three_logs_db) ->
                           LogEntry.timestamp r < 350).
  { intros r Hr. simpl in Hr.
    destruct Hr as [<-|[<-|[<-|[]]]]; simpl; lia. }
  exact (log_round_trip 350 400 "l4" "gateway" "error" "again" None [] 60 1
           three_logs_db Hfresh Hold Hw Hlimit).
Defined.

(** ** Tables in the order of time *)

Lemma sorted_snoc : forall (A : Type) (key : A -> Z) l x,
  StronglySorted (fun a b => key a <= key b) l ->
  Forall (fun a => key a <= key x) l ->
  StronglySorted (fun a b => key a <= key b) (l ++ [x]).
Proof.
  intros A key l x Hs Hx. induction Hs as [|a l Hs IH Ha]; simpl.
  - repeat constructor.
  - inversion Hx as [|? ? Hax Hlx]; subst. constructor; [now apply IH|].
    apply Forall_app. split; [exact Ha | now constructor].
Qed.

Lemma filter_sorted : forall (A : Type) (R : A -> A -> Prop) (f : A -> bool) l,
  StronglySorted R l -> StronglySorted R (filter f l).
Proof.
  intros A R f l H. induction H as [|a l Hl IH Ha]; simpl; [constructor|].
  destruct (f a); [|exact IH]. constructor; [exact IH|].
  rewrite Forall_forall in *. intros x Hx. apply Ha.
  now apply filter_In in Hx.
Qed.

Lemma history_times : forall t db,
  history t db ->
  (StronglySorted (fun a b => Metric.timestamp a <= Metric.timestamp b)
                  (metrics db) /\
   Forall (fun a => Metric.timestamp a <= t) (metrics db)) /\
  (StronglySorted (fun a b => LogEntry.timestamp a <= LogEntry.timestamp b)
                  (logs db) /\
   Forall (fun a => LogEntry.timestamp a <= t) (logs db)).
Proof.
  intros t db H. induction H as [t|t t' c db H [[IHm IHmt] [IHl IHlt]] Ht].
  - simpl. repeat split; constructor.
  - assert (IHmt' : Forall (fun a => Metric.timestamp a <= t') (metrics db))
      by (eapply Forall_impl; [|exact IHmt]; simpl; intros; lia).
    assert (IHlt' : Forall (fun a => LogEntry.timestamp a <= t') (logs db))
      by (eapply Forall_impl; [|exact IHlt]; simpl; intros; lia).
    assert (Hm : forall uuid name value labels type,
              StronglySorted
                (fun a b => Metric.timestamp a <= Metric.timestamp b)
                (metrics (store_after db
                   (record_metric t' uuid name value labels type db))) /\
              Forall (fun a => Metric.timestamp a <= t')
                (metrics (store_after db
                   (record_metric t' uuid name value labels type db)))).
    { intros. unfold record_metric. destruct (existsb _ _); simpl.
      - now split.
      - split.
        + apply (sorted_snoc _ Metric.timestamp); [exact IHm | exact IHmt'].
        + apply Forall_app. split; [exact IHmt'|].
          constructor; [simpl; lia | constructor]. }
    destruct c; cbn [run].
    + split; [apply Hm|]. unfold record_metric.
      destruct (existsb _ _); simpl; now split.
    + split; [apply Hm|]. unfold increment, record_metric.
      destruct (existsb _ _); simpl; now split.
    + unfold start_span. destruct (existsb _ _); simpl; now repeat split.
    + simpl. now repeat split.
    + unfold log. destruct (existsb _ _); simpl.
      * now repeat split.
      * split; [now split|]. split.
        -- apply (sorted_snoc _ LogEntry.timestamp); [exact IHl | exact IHlt'].
        -- apply Forall_app. split; [exact IHlt'|].
           constructor; [simpl; lia | constructor].
Qed.

(** X14: written on a clock that does not run backwards, the tables
    [metrics] and [logs] are in the order of their timestamps, none of them
    later than the last call; so [get_metrics] returns its rows oldest first,
    and what a dashboard field shows is the column [value], NULL or not, of
    the oldest row of its name in the last 60 minutes. *)
Theorem history_tables_in_time_order : forall t db,
  history t db ->
  StronglySorted (fun a b => Metric.timestamp a <= Metric.timestamp b)
                 (metrics db) /\
  StronglySorted (fun a b => LogEntry.timestamp a <= LogEntry.timestamp b)
                 (logs db) /\
  (forall m, In m (metrics db) -> Metric.timestamp m <= t) /\
  (forall l, In l (logs db) -> LogEntry.timestamp l <= t) /\
  (forall now name labels w,
     StronglySorted (fun a b => Metric.timestamp a <= Metric.timestamp b)
                    (get_metrics now name labels w db)) /\
  (forall now service field suffix m,
     In (field, suffix) dashboard_fields ->
     In m (get_metrics now None None 60 db) ->
     Metric.name m = (service ++ suffix)%string ->
     exists m0,
       In m0 (get_metrics now None None 60 db) /\
       Metric.name m0 = (service ++ suffix)%string /\
       field (Dashboard.metrics (service_dashboard now service db)) =
         Metric.value m0 /\
       Metric.timestamp m0 <= Metric.timestamp m).
Proof.
  intros t db H.
  destruct (history_times t db H) as [[Hm Hmt] [Hl Hlt]].
  assert (Hq : forall now name labels w,
            StronglySorted
              (fun a b => Metric.timestamp a <= Metric.timestamp b)
              (get_metrics now name labels w db)).
  { intros. unfold get_metrics. now apply filter_sorted. }
  split; [exact Hm | split; [exact Hl | split; [|split; [|split]]]].
  - now apply Forall_forall.
  - now apply Forall_forall.
  - exact Hq.
  - intros now service field suffix m Hin Hmw Hname.
    assert (E : field (Dashboard.metrics (service_dashboard now service db)) =
                _find_metric (get_metrics now None None 60 db)
                             (service ++ suffix)).
    { unfold service_dashboard. simpl in Hin |- *.
      destruct Hin as [F|[F|[F|[F|[F|[]]]]]]; injection F as <- <-;
        apply find_metric_dashboard. }
    destruct (find_metric_cases (get_metrics now None None 60 db)
                                (service ++ suffix))
      as [A|[older [m0 [newer [Hw [Hn Hold]]]]]].
    + exfalso. now apply (A m).
    + exists m0. rewrite E, Hw.
      split; [apply in_or_app; right; now left|].
      split; [exact Hn | split; [now apply find_metric_first|]].
      specialize (Hq now None None 60). rewrite Hw in Hq, Hmw.
      apply in_app_or in Hmw. destruct Hmw as [Hmo|[<-|Hmn]].
      * exfalso. now apply (Hold m).
      * lia.
      * replace (older ++ m0 :: newer)%list
          with ((older ++ [m0]) ++ newer)%list in Hq
          by (now rewrite <- app_assoc).
        apply (sorted_app_order _ _ _ _ Hq m0 m); [|exact Hmn].
        apply in_or_app. right. now left.
Qed.

Lemma two_readings_history : history 200 two_readings_db.
Proof.
  unfold two_readings_db.
  apply (history_call 100 200); [|lia].
  apply (history_call 100 100); [|lia].
  apply history_init.
Qed.

(** X14 at [two_readings_db]: the dashboard shows a reading no younger than
    the one recorded at 200. *)
Lemma history_tables_in_time_order_witness :
  exists m0,
    Dashboard.error_rate
      (Dashboard.metrics (service_dashboard 300 "gateway" two_readings_db)) =
      Metric.value m0 /\
    Metric.timestamp m0 <= 200.
Proof.
  destruct (proj2 (proj2 (proj2 (proj2 (proj2
              (history_tables_in_time_order 200 two_readings_db
                                            two_readings_history)))))
              300 "gateway" Dashboard.error_rate ".error_rate"
              (Metric.mk "m2" "gateway.error_rate" (Some 0.5%float) [] 200
                         "gauge")
              (or_intror (or_introl eq_refl))
              (or_intror (or_introl eq_refl))
              eq_refl)
    as [m0 [_ [_ [H1 H2]]]].
  exists m0. split; [exact H1 | exact H2].
Defined.

(** ** Sample data *)

Lemma record_all_fresh : forall todo env k db,
  NoDup (map (fun i => snd (env i)) (seq k (List.length todo))) ->
  (forall i, In i (seq k (List.length todo)) ->
             ~ In (snd (env i)) (map Metric.id (metrics db))) ->
  record_all env k todo db =
  (mkDB (metrics db ++ sample_rows env k todo) (spans db) (logs db), None).
Proof.
  induction todo as [|[[name value] labels] todo IH]; intros env k db Hd Hf.
  - simpl. rewrite app_nil_r. now destruct db.
  - cbn [record_all sample_rows]. simpl in Hd, Hf.
    inversion Hd as [|? ? Hk Hd']; subst.
    rewrite record_metric_fresh.
    + rewrite IH; cbn [metrics spans logs].
      * now rewrite <- app_assoc.
      * exact Hd'.
      * intros i Hi. rewrite map_app, in_app_iff. intros [H|[H|[]]].
        -- apply (Hf i); [now right | exact H].
        -- apply Hk. simpl in H. rewrite H.
           now apply (in_map (fun i => snd (env i))).
    + intros r Hr E. apply (Hf k); [now left|].
      rewrite <- E. now apply in_map.
Qed.

Lemma error_rate_sample : forall h,
  PrimFloat.ltb 0x1.999999999999ap-5
                (PrimFloat.div (float_of_int (h mod 5)) 100) = false.
Proof.
  intros h. pose proof (Z.mod_pos_bound h 5 ltac:(lia)) as B.
  assert (C : h mod 5 = 0 \/ h mod 5 = 1 \/ h mod 5 = 2 \/ h mod 5 = 3 \/
              h mod 5 = 4) by lia.
  destruct C as [C|[C|[C|[C|C]]]]; rewrite C; reflexivity.
Qed.

Lemma p99_latency_sample : forall h,
  PrimFloat.ltb 500 (float_of_int (100 + h mod 200)) = false.
Proof.
  intros h. pose proof (Z.mod_pos_bound h 200 ltac:(lia)) as B.
  assert (F : forallb
                (fun n => negb (PrimFloat.ltb 500
                                  (float_of_int (100 + Z.of_nat n))))
                (seq 0 200) = true) by (vm_compute; reflexivity).
  rewrite forallb_forall in F.
  specialize (F (Z.to_nat (h mod 200))).
  rewrite Z2Nat.id in F by lia. apply negb_true_iff, F, in_seq. lia.
Qed.

(** The sample values are ordinary numbers, none of them zero but the
    error rate [0.0]: the table keeps them as they are. *)
Lemma sql_real_kept : forall v,
  PrimFloat.is_nan v = false -> PrimFloat.eqb v 0 = false ->
  sql_real v = Some v.
Proof. intros v H1 H2. unfold sql_real. now rewrite H1, H2. Qed.

Lemma requests_stored : forall h,
  sql_real (float_of_int (150 + h mod 100)) =
  Some (float_of_int (150 + h mod 100)).
Proof.
  intros h. pose proof (Z.mod_pos_bound h 100 ltac:(lia)) as B.
  assert (F : forallb
                (fun n =>
                   negb (PrimFloat.is_nan (float_of_int (150 + Z.of_nat n)))
                   && negb (PrimFloat.eqb (float_of_int (150 + Z.of_nat n)) 0))
                (seq 0 100) = true) by (vm_compute; reflexivity).
  rewrite forallb_forall in F.
  specialize (F (Z.to_nat (h mod 100))).
  rewrite Z2Nat.id in F by lia.
  assert (I : In (Z.to_nat (h mod 100)) (seq 0 100)) by (apply in_seq; lia).
  apply F in I. apply andb_true_iff in I. destruct I as [I1 I2].
  apply negb_true_iff in I1, I2. now apply sql_real_kept.
Qed.

Lemma p99_latency_stored : forall h,
  sql_real (float_of_int (100 + h mod 200)) =
  Some (float_of_int (100 + h mod 200)).
Proof.
  intros h. pose proof (Z.mod_pos_bound h 200 ltac:(lia)) as B.
  assert (F : forallb
                (fun n =>
                   negb (PrimFloat.is_nan (float_of_int (100 + Z.of_nat n)))
                   && negb (PrimFloat.eqb (float_of_int (100 + Z.of_nat n)) 0))
                (seq 0 200) = true) by (vm_compute; reflexivity).
  rewrite forallb_forall in F.
  specialize (F (Z.to_nat (h mod 200))).
  rewrite Z2Nat.id in F by lia.
  assert (I : In (Z.to_nat (h mod 200)) (seq 0 200)) by (apply in_seq; lia).
  apply F in I. apply andb_true_iff in I. destruct I as [I1 I2].
  apply negb_true_iff in I1, I2. now apply sql_real_kept.
Qed.

Lemma error_rate_stored : forall h,
  sql_real (PrimFloat.div (float_of_int (h mod 5)) 100) =
  Some (PrimFloat.div (float_of_int (h mod 5)) 100).
Proof.
  intros h. pose proof (Z.mod_pos_bound h 5 ltac:(lia)) as B.
  assert (C : h mod 5 = 0 \/ h mod 5 = 1 \/ h mod 5 = 2 \/ h mod 5 = 3 \/
              h mod 5 = 4) by lia.
  destruct C as [C|[C|[C|[C|C]]]]; rewrite C; reflexivity.
Qed.

Lemma quiet_row : forall id name v labels ts type,
  (str_in "error_rate" name = true ->
   PrimFloat.ltb 0x1.999999999999ap-5 v = false) ->
  (str_in "p99_latency" name = true -> PrimFloat.ltb 500 v = false) ->
  unjudged (Metric.mk id name (Some v) labels ts type) = false /\
  violations_of (Metric.mk id name (Some v) labels ts type) = [].
Proof.
  intros id name v labels ts type H1 H2.
  unfold unjudged, violations_of, exceeds.
  cbn [Metric.name Metric.value]. split; [apply andb_false_r|].
  destruct (str_in "error_rate" name); [rewrite H1 by reflexivity|];
    (destruct (str_in "p99_latency" name); [rewrite H2 by reflexivity|]);
    reflexivity.
Qed.

Lemma sample_rows_quiet : forall hash env k,
  Forall (fun r => unjudged r = false /\ violations_of r = [])
         (sample_rows env k (flat_map (sample_metrics hash) SERVICES)).
Proof.
  intros hash env k.
  cbn [flat_map sample_metrics SERVICES app sample_rows].
  rewrite !requests_stored, !error_rate_stored, !p99_latency_stored.
  repeat (constructor;
          [apply quiet_row; intros H; vm_compute in H;
           first [discriminate H | apply error_rate_sample
                 | apply p99_latency_sample]|]).
  constructor.
Qed.

Lemma flat_map_nil : forall (A B : Type) (f : A -> list B) l,
  Forall (fun x => f x = []) l -> flat_map f l = [].
Proof.
  intros A B f l H. induction H as [|x l Hx Hl IH]; simpl; [reflexivity|].
  now rewrite Hx, IH.
Qed.

Lemma Forall_filter : forall (A : Type) (P : A -> Prop) (f : A -> bool) l,
  Forall P l -> Forall P (filter f l).
Proof.
  intros A P f l H. rewrite Forall_forall in *. intros x Hx.
  apply filter_In in Hx. now apply H.
Qed.

(** X15: the sample data is quiet.  Whatever the hash of the service names,
    when the 15 generated ids are distinct and new to the table,
    [_populate_sample_data] succeeds, appends 15 rows, three for each of the
    five services, and adds no violation to [alert_rules], at any time. *)
Theorem sample_data_is_quiet : forall hash env db,
  NoDup (map (fun i => snd (env i)) (seq 0 15)) ->
  (forall i, In i (seq 0 15) ->
             ~ In (snd (env i)) (map Metric.id (metrics db))) ->
  exists rows,
    _populate_sample_data hash env db =
      (mkDB (metrics db ++ rows) (spans db) (logs db), None) /\
    List.length rows = 15%nat /\
    map Metric.name rows =
      flat_map (fun service =>
                  [ (service ++ ".requests_per_minute")%string;
                    (service ++ ".error_rate")%string;
                    (service ++ ".p99_latency_ms")%string ]) SERVICES /\
    forall now,
      alert_rules now (fst (_populate_sample_data hash env db)) =
      alert_rules now db.
Proof.
  intros hash env db Hd Hf.
  exists (sample_rows env 0 (flat_map (sample_metrics hash) SERVICES)).
  assert (E : _populate_sample_data hash env db =
              (mkDB (metrics db ++
                       sample_rows env 0
                         (flat_map (sample_metrics hash) SERVICES))
                    (spans db) (logs db), None)).
  { unfold _populate_sample_data. apply record_all_fresh; assumption. }
  split; [exact E | split; [reflexivity | split; [reflexivity|]]].
  intros now. rewrite E. cbn [fst]. unfold alert_rules. cbn zeta.
  rewrite get_metrics_app, alert_loop_app.
  destruct (alert_loop (get_metrics now None None 5 db) []) as [violations|e];
    [|reflexivity].
  assert (Q : Forall (fun r => unjudged r = false /\ violations_of r = [])
                (get_metrics now None None 5
                   (mkDB (sample_rows env 0
                            (flat_map (sample_metrics hash) SERVICES)) [] [])))
    by (unfold get_metrics; cbn [metrics]; apply Forall_filter,
        sample_rows_quiet).
  rewrite alert_loop_judged, flat_map_nil, app_nil_r.
  - reflexivity.
  - eapply Forall_impl; [|exact Q]. now intros r [_ H].
  - eapply Forall_impl; [|exact Q]. now intros r [H _].
Qed.

(** X15 on the empty store, in the process [hash7] with the ids and clock
    readings [env_k]. *)
Lemma sample_data_is_quiet_witness :
  alert_rules 20 (fst (_populate_sample_data hash7 env_k empty_db)) = Ok [].
Proof.
  assert (Hd : NoDup (map (fun i => snd (env_k i)) (seq 0 15))).
  { vm_compute. repeat (constructor; [simpl; intuition discriminate|]).
    constructor. }
  assert (Hf : forall i, In i (seq 0 15) ->
                 ~ In (snd (env_k i)) (map Metric.id (metrics empty_db)))
    by (intros i _ []).
  destruct (sample_data_is_quiet hash7 env_k empty_db Hd Hf)
    as [rows [_ [_ [_ H]]]].
  exact (H 20).
Defined.

Lemma filter_all : forall (A : Type) (f : A -> bool) l,
  Forall (fun x => f x = true) l -> filter f l = l.
Proof.
  intros A f l H. induction H as [|x l Hx Hl IH]; simpl; [reflexivity|].
  now rewrite Hx, IH.
Qed.

(** X16: the dashboard of a new store.  After [_populate_sample_data] on an
    empty store, and while its rows are younger than 60 minutes, the dashboard
    of each of the five services shows the sample request rate, error rate
    and [p99] latency of that service, and [p50_latency] and [p95_latency]
    are null: no sample is written for them. *)
Theorem sample_data_dashboard : forall hash env now service,
  NoDup (map (fun i => snd (env i)) (seq 0 15)) ->
  (forall i, In i (seq 0 15) -> now - fst (env i) < minutes 60) ->
  In service SERVICES ->
  Dashboard.metrics
    (service_dashboard now service
       (fst (_populate_sample_data hash env empty_db))) =
  sample_dashboard hash service.
Proof.
  intros hash env now service Hd Hw Hs.
  unfold _populate_sample_data.
  rewrite record_all_fresh; [|exact Hd | intros i _ []].
  cbn [fst metrics spans logs empty_db app].
  unfold service_dashboard, sample_dashboard. cbn [Dashboard.metrics].
  rewrite !find_metric_dashboard.
  assert (W : get_metrics now None None 60
                (mkDB (sample_rows env 0
                         (flat_map (sample_metrics hash) SERVICES)) [] []) =
              sample_rows env 0 (flat_map (sample_metrics hash) SERVICES)).
  { unfold get_metrics. cbn [metrics]. apply filter_all.
    cbn [flat_map sample_metrics SERVICES app sample_rows].
    repeat (constructor;
            [unfold name_matches; cbn [truthy Metric.timestamp];
             rewrite andb_true_r; apply Z.ltb_lt;
             match goal with
             | |- _ < fst (env ?i) =>
                 specialize (Hw i ltac:(simpl; tauto)); lia
             end|]).
    constructor. }
  rewrite W. cbn [flat_map sample_metrics SERVICES app sample_rows].
  rewrite !requests_stored, !error_rate_stored, !p99_latency_stored.
  simpl in Hs.
  destruct Hs as [<-|[<-|[<-|[<-|[<-|[]]]]]]; reflexivity.
Qed.

(** X16 in the process [hash7]: every string hashes to 7, so the gateway
    shows 157 requests per minute, an error rate of 0.02 and a [p99] of
    107. *)
Lemma sample_data_dashboard_witness :
  Dashboard.metrics
    (service_dashboard 20 "gateway"
       (fst (_populate_sample_data hash7 env_k empty_db))) =
  Dashboard.mk_metrics (Some 157%float) (Some 0x1.47ae147ae147bp-6%float)
                       None None (Some 107%float).
Proof.
  assert (Hd : NoDup (map (fun i => snd (env_k i)) (seq 0 15))).
  { vm_compute. repeat (constructor; [simpl; intuition discriminate|]).
    constructor. }
  assert (Hw : forall i, In i (seq 0 15) ->
                         20 - fst (env_k i) < minutes 60).
  { intros i Hi. apply in_seq in Hi. unfold env_k, minutes. cbn [fst]. lia. }
  rewrite (sample_data_dashboard hash7 env_k 20 "gateway" Hd Hw
             (or_introl eq_refl)).
  vm_compute. reflexivity.
Defined.

(** ** Sample data that fails, and sample data written twice *)

Lemma record_all_prefix : forall todo env k db,
  exists n,
    (n <= List.length todo)%nat /\
    metrics (fst (record_all env k todo db)) =
      (metrics db ++ firstn n (sample_rows env k todo))%list /\
    spans (fst (record_all env k todo db)) = spans db /\
    logs (fst (record_all env k todo db)) = logs db /\
    ((snd (record_all env k todo db) = None /\ n = List.length todo) \/
     (snd (record_all env k todo db) = Some IntegrityError /\
      (n < List.length todo)%nat /\
      In (snd (env (k + n)%nat))
         (map Metric.id
              (metrics db ++ firstn n (sample_rows env k todo))))).
Proof.
  induction todo as [|[[name value] labels] todo IH]; intros env k db.
  - exists 0%nat. simpl. rewrite app_nil_r. repeat split; auto.
  - cbn [record_all sample_rows]. unfold record_metric.
    destruct (existsb _ (metrics db)) eqn:E.
    + exists 0%nat. simpl. rewrite app_nil_r, Nat.add_0_r.
      repeat split; try lia. right.
      repeat split; try lia. now apply fresh_iff in E.
    + destruct (IH env (S k)
                  (mkDB (metrics db ++
                           [Metric.mk (snd (env k)) name (sql_real value)
                                      labels (fst (env k)) "gauge"])
                        (spans db) (logs db)))
        as [n [Hn [Hm [Hs [Hl Hr]]]]].
      exists (S n). cbn [metrics spans logs] in Hm, Hs, Hl, Hr.
      rewrite Hm, Hs, Hl. cbn [firstn List.length].
      rewrite <- !app_assoc in *. cbn [app] in *.
      replace (k + S n)%nat with (S k + n)%nat by lia.
      repeat split; try lia.
      destruct Hr as [[Hr1 Hr2]|[Hr1 [Hr2 Hr3]]].
      * left. split; [exact Hr1 | lia].
      * right. repeat split; [exact Hr1 | lia | exact Hr3].
Qed.

(** X18: [_populate_sample_data] can fail only with [IntegrityError] and
    only part of the way.  In every case the store it leaves is the old
    store with the first [n] sample rows appended, spans and logs untouched;
    it succeeds with all 15, or it raises at the first generated id that is
    already a key, the rows written before that staying in the table. *)
Theorem sample_data_stops_at_first_failure : forall hash env db,
  exists n,
    (n <= 15)%nat /\
    metrics (fst (_populate_sample_data hash env db)) =
      (metrics db ++
       firstn n (sample_rows env 0 (flat_map (sample_metrics hash) SERVICES)))
      %list /\
    spans (fst (_populate_sample_data hash env db)) = spans db /\
    logs (fst (_populate_sample_data hash env db)) = logs db /\
    ((snd (_populate_sample_data hash env db) = None /\ n = 15%nat) \/
     (snd (_populate_sample_data hash env db) = Some IntegrityError /\
      (n < 15)%nat /\
      In (snd (env n))
         (map Metric.id
              (metrics db ++
               firstn n (sample_rows env 0
                           (flat_map (sample_metrics hash) SERVICES)))))).
Proof.
  intros hash env db. unfold _populate_sample_data.
  destruct (record_all_prefix (flat_map (sample_metrics hash) SERVICES)
                              env 0 db) as [n H].
  exists n. exact H.
Qed.

(** A process whose fourth generated id repeats its first: the run stops
    there, three rows written. *)
Example sample_data_partial :
  let env := fun k => if Nat.eqb k 3 then env_k 0 else env_k k in
  snd (_populate_sample_data hash7 env empty_db) = Some IntegrityError /\
  map Metric.name (metrics (fst (_populate_sample_data hash7 env empty_db))) =
    ["gateway.requests_per_minute"; "gateway.error_rate";
     "gateway.p99_latency_ms"].
Proof. split; vm_compute; reflexivity. Qed.

Lemma sample_rows_ids : forall todo env k,
  map Metric.id (sample_rows env k todo) =
  map (fun i => snd (env i)) (seq k (List.length todo)).
Proof.
  induction todo as [|[[name value] labels] todo IH]; intros env k; simpl.
  - reflexivity.
  - now rewrite IH.
Qed.

Lemma NoDup_app_apart : forall (A : Type) (l1 l2 : list A) x,
  NoDup (l1 ++ l2) -> In x l1 -> In x l2 -> False.
Proof.
  intros A l1 l2 x. induction l1 as [|y l1 IH]; simpl; intros H H1 H2.
  - exact H1.
  - inversion H as [|? ? Hy Hl]; subst. destruct H1 as [->|H1].
    + apply Hy, in_or_app. now right.
    + now apply IH.
Qed.

Lemma find_metric_filter_None : forall (f : Metric.row -> bool) l nm,
  existsb (fun m => String.eqb (Metric.name m) nm) l = false ->
  _find_metric (filter f l) nm = None.
Proof.
  intros f l nm H. apply find_metric_absent. intros m Hm E.
  apply filter_In in Hm. destruct Hm as [Hm _].
  assert (X : existsb (fun m => String.eqb (Metric.name m) nm) l = true)
    by (apply named_row; now exists m).
  congruence.
Qed.

Lemma sample_rows_window : forall hash env now,
  (forall i, In i (seq 0 15) -> now - fst (env i) < minutes 60) ->
  filter (fun r => (now - minutes 60 <? Metric.timestamp r)
                   && name_matches None r)
         (sample_rows env 0 (flat_map (sample_metrics hash) SERVICES)) =
  sample_rows env 0 (flat_map (sample_metrics hash) SERVICES).
Proof.
  intros hash env now Hw. apply filter_all.
  cbn [flat_map sample_metrics SERVICES app sample_rows].
  repeat (constructor;
          [unfold name_matches; cbn [truthy Metric.timestamp];
           rewrite andb_true_r; apply Z.ltb_lt;
           match goal with
           | |- _ < fst (env ?i) =>
               specialize (Hw i ltac:(simpl; tauto)); lia
           end|]).
  constructor.
Qed.

(** X19: a second start within the hour does not refresh the dashboard.  The
    constructor writes the sample data at every start, with the hash of the
    new process; when it has run twice on a store that was empty, the
    dashboard of each of the five services still shows the sample values of
    the first run while these are younger than 60 minutes. *)
Theorem sample_data_second_start :
  forall hash1 env1 hash2 env2 now service,
  NoDup (map (fun i => snd (env1 i)) (seq 0 15) ++
         map (fun i => snd (env2 i)) (seq 0 15)) ->
  (forall i, In i (seq 0 15) -> now - fst (env1 i) < minutes 60) ->
  In service SERVICES ->
  Dashboard.metrics
    (service_dashboard now service
       (fst (_populate_sample_data hash2 env2
               (fst (_populate_sample_data hash1 env1 empty_db))))) =
  sample_dashboard hash1 service.
Proof.
  intros hash1 env1 hash2 env2 now service Hd Hw Hs.
  pose proof (NoDup_app_remove_r _ _ Hd) as Hd1.
  pose proof (NoDup_app_remove_l _ _ Hd) as Hd2.
  unfold _populate_sample_data.
  rewrite (record_all_fresh _ env1 0 empty_db); [|exact Hd1 | intros i _ []].
  cbn [fst metrics spans logs empty_db app].
  rewrite record_all_fresh; [|exact Hd2|].
  - cbn [fst metrics spans logs].
    unfold service_dashboard, sample_dashboard. cbn [Dashboard.metrics].
    rewrite !find_metric_dashboard.
    unfold get_metrics. cbn [metrics]. rewrite filter_app.
    rewrite (sample_rows_window hash1 env1 now Hw), !find_metric_app.
    assert (P : forall nm,
              existsb (fun m => String.eqb (Metric.name m) nm)
                (sample_rows env2 0 (flat_map (sample_metrics hash2) SERVICES))
              = false ->
              _find_metric
                (filter (fun r => (now - minutes 60 <? Metric.timestamp r)
                                  && name_matches None r)
                   (sample_rows env2 0
                      (flat_map (sample_metrics hash2) SERVICES))) nm = None)
      by (intros nm; apply find_metric_filter_None).
    simpl in Hs.
    destruct Hs as [<-|[<-|[<-|[<-|[<-|[]]]]]];
      rewrite (P (_ ++ ".p50_latency_ms")%string) by reflexivity;
      rewrite (P (_ ++ ".p95_latency_ms")%string) by reflexivity;
      cbn [flat_map sample_metrics SERVICES app sample_rows];
      rewrite !requests_stored, !error_rate_stored, !p99_latency_stored;
      reflexivity.
  - intros i Hi. cbn [metrics]. rewrite sample_rows_ids.
    intros Hin. apply (NoDup_app_apart _ _ _ (snd (env2 i)) Hd).
    + exact Hin.
    + now apply (in_map (fun i => snd (env2 i))).
Qed.

(** X19 with the processes [hash7] and [hash9]: after both starts the gateway
    still shows the first one's 157 requests per minute. *)
Lemma sample_data_second_start_witness :
  Dashboard.metrics
    (service_dashboard 120 "gateway"
       (fst (_populate_sample_data hash9 env_k2
               (fst (_populate_sample_data hash7 env_k empty_db))))) =
  Dashboard.mk_metrics (Some 157%float) (Some 0x1.47ae147ae147bp-6%float)
                       None None (Some 107%float).
Proof.
  assert (Hd : NoDup (map (fun i => snd (env_k i)) (seq 0 15) ++
                      map (fun i => snd (env_k2 i)) (seq 0 15))).
  { vm_compute. repeat (constructor; [simpl; intuition discriminate|]).
    constructor. }
  assert (Hw : forall i, In i (seq 0 15) ->
                         120 - fst (env_k i) < minutes 60).
  { intros i Hi. apply in_seq in Hi. unfold env_k, minutes. cbn [fst]. lia. }
  rewrite (sample_data_second_start hash7 env_k hash9 env_k2 120 "gateway"
             Hd Hw (or_introl eq_refl)).
  vm_compute. reflexivity.
Defined.
